(** * Verification of the cacao flower microbiome helper scripts

    Two Python scripts are embedded here:

    - [qiime2/scripts/03_creating_separate_stacks_mapping_files.py]
      (function [create_mapping_files]), in module [Mapping];
    - [qiime2/rarefaction/analyze_rarefaction_depth.py]
      (function [extract_sample_stats]), in module [Rarefaction].

    Modelling conventions.

    - A Python [str] is a Rocq [string]; a character is a code point below
      256, so the white space that [str.strip] removes is the set of code
      points below 256 for which [str.isspace] holds.
    - The file system is a finite map from paths to text contents together
      with a set of directories.  Paths are opaque names; opening a path for
      writing always succeeds, opening an absent path for reading raises
      [FileNotFoundError].  Text files are read with universal newlines, as
      Python's [open(path, 'r')] does.
    - Console output and file-system operations are recorded, in program
      order, in a trace of events.  A [print] of an f-string is recorded as
      a message constructor that carries the interpolated values.
    - Python code runs in the monad [M]: a state monad over the world with
      exceptions.

    Layout.  The definitions come first: the string built-ins ([Py]), the
    world and the monad, the two scripts with the definitions in which
    their properties are stated.  The proofs follow: facts about the
    built-ins and the monad, the two loops of [create_mapping_files], the
    theorem [run_create_mapping_files] that gives the whole run as a
    function of the input, and then the properties C1 to C10. *)

From Stdlib Require Import Ascii.
From stdpp Require Import gmap strings list sorting.

(** ** Python built-ins on strings *)

Module Py.

Definition TAB : ascii := "009"%char.
Definition LF : ascii := "010"%char.
Definition CR : ascii := "013"%char.

Definition tab : string := String TAB "".
Definition nl : string := String LF "".

(** [str.isspace] on one character: code points 9-13, 28-32, 0x85, 0xA0. *)
Definition isspace (c : ascii) : bool :=
  let n := N_of_ascii c in
  (((9 <=? n) && (n <=? 13)) || ((28 <=? n) && (n <=? 32))
   || (n =? 133) || (n =? 160))%N.

(** [s.lstrip()] *)
Fixpoint lstrip (s : string) : string :=
  match s with
  | "" => ""
  | String c r => if isspace c then lstrip r else s
  end.

(** [s.rstrip()] *)
Fixpoint rstrip (s : string) : string :=
  match s with
  | "" => ""
  | String c r =>
      match rstrip r with
      | "" => if isspace c then "" else String c ""
      | r' => String c r'
      end
  end.

(** [s.strip()]: white space is removed at both ends. *)
Definition strip (s : string) : string := rstrip (lstrip s).

(** [s.split(sep)] for a one-character separator; the result is never
    empty, and [''.split(sep) == ['']]. *)
Fixpoint split (sep : ascii) (s : string) : list string :=
  match s with
  | "" => [""]
  | String c r =>
      if Ascii.eqb c sep then "" :: split sep r
      else match split sep r with
           | f :: fs => String c f :: fs
           | [] => [String c ""]
           end
  end.

(** [s.endswith(suffix)] *)
Definition endswith (s suffix : string) : bool :=
  if (String.length suffix <=? String.length s)%nat
  then String.eqb
         (String.substring (String.length s - String.length suffix)
            (String.length suffix) s) suffix
  else false.

(** [s[:n]] *)
Definition slice_to (n : nat) (s : string) : string := String.substring 0 n s.

(** Truth value of a string: [not s] holds for the empty string only. *)
Definition truthy (s : string) : bool :=
  match s with "" => false | String _ _ => true end.

(** [file.readlines()] on a text file opened with universal newlines:
    the input forms CR LF and CR are both seen as LF, and every line keeps its terminator. *)
Fixpoint readlines (s : string) : list string :=
  match s with
  | "" => []
  | String c r =>
      if Ascii.eqb c LF then nl :: readlines r
      else if Ascii.eqb c CR then
        match r with
        | String c' r' => if Ascii.eqb c' LF then nl :: readlines r'
                          else nl :: readlines r
        | "" => [nl]
        end
      else match readlines r with
           | l :: ls => String c l :: ls
           | [] => [String c ""]
           end
  end.

(** [s.count(c)]: number of occurrences of a character. *)
Fixpoint count_char (c : ascii) (s : string) : nat :=
  match s with
  | "" => 0
  | String x r => (if Ascii.eqb x c then 1 else 0) + count_char c r
  end.

(** [os.path.join(a, b)] of [posixpath]. *)
Definition path_join (a b : string) : string :=
  match b with
  | String "/" _ => b
  | _ =>
      if negb (truthy a) || endswith a "/" then a +:+ b
      else a +:+ "/" +:+ b
  end.

(** [sorted] on strings: Python orders [str] lexicographically by code
    point, which is [String.le]. *)
Definition sorted (l : list string) : list string := merge_sort String.le l.

(** Predicates on text used in the statements: a line break character,
    text without line breaks, text whose only line break (if any) is its
    last character, and text made of white space only. *)
Definition is_newline (c : ascii) : bool := Ascii.eqb c LF || Ascii.eqb c CR.

Fixpoint no_newline (s : string) : bool :=
  match s with
  | "" => true
  | String c r => negb (is_newline c) && no_newline r
  end.

Fixpoint one_line (s : string) : bool :=
  match s with
  | "" => true
  | String c r =>
      match r with
      | "" => true
      | _ => negb (is_newline c) && one_line r
      end
  end.

Fixpoint all_space (s : string) : bool :=
  match s with
  | "" => true
  | String c r => isspace c && all_space r
  end.

End Py.

(** ** The world, exceptions and the monad of Python code *)

(** Exceptions raised by the modelled code. *)
Inductive exn : Type :=
  | FileNotFoundError (path : string)
  | IndexError
  | KeyError (key : string)
  | LibraryError (what : string).

(** Console messages, one constructor per [print] call of the scripts. *)
Inductive Msg : Type :=
  | MReading (input_file : string)
  | MFileNotFound (input_file : string)
  | MReadLines (n : nat)
  | MHeader (header : list string)
  | MDataRows (n : nat)
  | MOutputDir (output_dir : string)
  | MSkipping (line50 : string)
  | MFound (n : nat)
  | MProcessing (sublibrary_id : string)
  | MSamples (half n : nat)
  | MCreated (output_file : string)
  | MExampleHeader
  | MExample (forward_tag reverse_tag sample_name : string)
  | MComplete
  | MCreatedTotal (files_created : nat)
  | MReady
  | MNoFrequencyData (qzv_file : string).

(** Observable effects, in program order. *)
Inductive Event : Type :=
  | EPrint (m : Msg)
  | EMakedirs (path : string)
  | EOpenW (path : string)
  | EWrite (path : string) (data : string).

Record World : Type := mkWorld {
  files : gmap string string;
  dirs : gset string;
  trace : list Event
}.

Inductive result (A : Type) : Type :=
  | Val (a : A)
  | Raise (e : exn).
Arguments Val {A} a.
Arguments Raise {A} e.

Definition M (A : Type) : Type := World → result A * World.

Definition run {A} (m : M A) (w : World) : result A * World := m w.

Global Instance M_ret : MRet M := λ A a w, (Val a, w).
Global Instance M_bind : MBind M := λ A B f m w,
  match m w with
  | (Val a, w') => f a w'
  | (Raise e, w') => (Raise e, w')
  end.

Definition raise {A} (e : exn) : M A := λ w, (Raise e, w).

(** [try: m  except FileNotFoundError: h] *)
Definition try_except_FileNotFoundError {A} (m : M A) (h : M A) : M A := λ w,
  match m w with
  | (Raise (FileNotFoundError _), w') => h w'
  | r => r
  end.

Definition emit (e : Event) : M unit := λ w,
  (Val tt, mkWorld (files w) (dirs w) (trace w ++ [e])).

Definition print (m : Msg) : M unit := emit (EPrint m).

(** [with open(path, 'r') as file: file.readlines()] *)
Definition open_readlines (path : string) : M (list string) := λ w,
  match files w !! path with
  | Some content => (Val (Py.readlines content), w)
  | None => (Raise (FileNotFoundError path), w)
  end.

(** [os.makedirs(path, exist_ok=True)] *)
Definition makedirs (path : string) : M unit := λ w,
  (Val tt, mkWorld (files w) ({[path]} ∪ dirs w) (trace w ++ [EMakedirs path])).

(** [open(path, 'w')]: the file is created or truncated. *)
Definition open_w (path : string) : M unit := λ w,
  (Val tt, mkWorld (<[path := ""]> (files w)) (dirs w) (trace w ++ [EOpenW path])).

(** [file.write(data)] on a file opened by [open_w path]. *)
Definition file_write (path data : string) : M unit := λ w,
  (Val tt, mkWorld (<[path := default "" (files w !! path) +:+ data]> (files w))
             (dirs w) (trace w ++ [EWrite path data])).

(** [l[i]] *)
Definition getitem {A} (l : list A) (i : nat) : M A :=
  match l !! i with
  | Some x => mret x
  | None => raise IndexError
  end.

(** [for x in l: body x] *)
Fixpoint for_each {A} (l : list A) (body : A → M unit) : M unit :=
  match l with
  | [] => mret tt
  | x :: l' => body x;; for_each l' body
  end.

(** A [for] loop that updates local variables of type [S]. *)
Fixpoint for_fold {A S} (l : list A) (body : S → A → M S) (s : S) : M S :=
  match l with
  | [] => mret s
  | x :: l' => s' ← body s x; for_fold l' body s'
  end.

(** ** [03_creating_separate_stacks_mapping_files.py] *)

Module Mapping.

Record OutputRecord : Type := mkRecord {
  forward_tag : string;
  reverse_tag : string;
  sample_name : string
}.

Definition SAMPLE_ID : nat := 0.
Definition SUBLIBRARY_ID : nat := 1.
Definition S16_FORWARD_TAG : nat := 3.
Definition S16_REVERSE_TAG : nat := 5.
Definition ITS1_FORWARD_TAG : nat := 7.
Definition ITS1_REVERSE_TAG : nat := 9.

(** [data_lines = [line.strip() for line in lines[1:] if line.strip()]] *)
Definition data_lines (lines : list string) : list string :=
  Py.strip <$> filter (λ line, Py.truthy (Py.strip line) = true) (drop 1 lines).

(** [sublibraries[key].append(r)] *)
Definition dict_append (key : string) (r : OutputRecord)
    (sublibraries : gmap string (list OutputRecord))
    : M (gmap string (list OutputRecord)) :=
  match sublibraries !! key with
  | Some samples => mret (<[key := samples ++ [r]]> sublibraries)
  | None => raise (KeyError key)
  end.

(** Body of the loop [for line in data_lines]. *)
Definition group_line (sublibraries : gmap string (list OutputRecord))
    (line : string) : M (gmap string (list OutputRecord)) :=
  let columns := Py.split Py.TAB line in
  if length columns <? 10 then
    print (MSkipping (Py.slice_to 50 line));;
    mret sublibraries
  else
    sample_id ← getitem columns SAMPLE_ID;
    sublibrary_id ← getitem columns SUBLIBRARY_ID;
    if negb (Py.truthy sample_id) || negb (Py.truthy sublibrary_id) then
      mret sublibraries
    else
      let sublibraries :=
        match sublibraries !! sublibrary_id with
        | None => <[sublibrary_id := []]> sublibraries
        | Some _ => sublibraries
        end in
      s16_forward ← getitem columns S16_FORWARD_TAG;
      s16_reverse ← getitem columns S16_REVERSE_TAG;
      its1_forward ← getitem columns ITS1_FORWARD_TAG;
      its1_reverse ← getitem columns ITS1_REVERSE_TAG;
      sublibraries ← dict_append sublibrary_id
        (mkRecord s16_forward s16_reverse (sample_id +:+ "_16S")) sublibraries;
      dict_append sublibrary_id
        (mkRecord its1_forward its1_reverse (sample_id +:+ "_ITS1")) sublibraries.

(** The line written for one record. *)
Definition format_record (sample : OutputRecord) : string :=
  forward_tag sample +:+ Py.tab +:+ reverse_tag sample +:+ Py.tab
    +:+ sample_name sample +:+ Py.nl.

(** Body of the loop [for sublibrary_id in sorted(sublibraries.keys())]. *)
Definition write_sublibrary (output_dir : string)
    (sublibraries : gmap string (list OutputRecord))
    (files_created : nat) (sublibrary_id : string) : M nat :=
  samples ← match sublibraries !! sublibrary_id with
            | Some samples => mret samples
            | None => raise (KeyError sublibrary_id)
            end;
  print (MProcessing sublibrary_id);;
  print (MSamples (length samples / 2) (length samples));;
  let output_file := Py.path_join output_dir (sublibrary_id +:+ "_tags.tsv") in
  open_w output_file;;
  for_each samples (λ sample, file_write output_file (format_record sample));;
  print (MCreated output_file);;
  print MExampleHeader;;
  for_each (take 4 samples) (λ sample,
    print (MExample (forward_tag sample) (reverse_tag sample) (sample_name sample)));;
  mret (files_created + 1).

(** Statements of [create_mapping_files] after the input was read. *)
Definition process_lines (lines : list string) (output_dir : string) : M unit :=
  print (MReadLines (length lines));;
  line0 ← getitem lines 0;
  let header := Py.split Py.TAB (Py.strip line0) in
  let data_lines := data_lines lines in
  print (MHeader header);;
  print (MDataRows (length data_lines));;
  makedirs output_dir;;
  print (MOutputDir output_dir);;
  sublibraries ← for_fold data_lines group_line ∅;
  print (MFound (size sublibraries));;
  files_created ← for_fold (Py.sorted (map_to_list sublibraries).*1)
                     (write_sublibrary output_dir sublibraries) 0;
  print MComplete;;
  print (MCreatedTotal files_created);;
  print MReady.

(** The [return] inside the handler leaves the function: the handler
    yields [None] and nothing follows it. *)
Definition create_mapping_files (input_file output_dir : string) : M unit :=
  print (MReading input_file);;
  read ← try_except_FileNotFoundError
           (lines ← open_readlines input_file;
            mret (Some lines))
           (print (MFileNotFound input_file);;
            mret None);
  match read with
  | Some lines => process_lines lines output_dir
  | None => mret tt
  end.

(** *** Reading a run: observers on the trace *)

(** Events that a run appended to the trace. *)
Definition new_events (w w' : World) : list Event :=
  drop (length (trace w)) (trace w').

(** Data passed to [file.write] up to the next [open(..., 'w')]. *)
Fixpoint writes_to_open (tr : list Event) : list string :=
  match tr with
  | [] => []
  | EOpenW _ :: _ => []
  | EWrite _ data :: tr' => data :: writes_to_open tr'
  | _ :: tr' => writes_to_open tr'
  end.

(** The files opened for writing, in order, each with the strings written
    to it by the successive [file.write] calls. *)
Fixpoint files_written (tr : list Event) : list (string * list string) :=
  match tr with
  | [] => []
  | EOpenW path :: tr' => (path, writes_to_open tr') :: files_written tr'
  | _ :: tr' => files_written tr'
  end.

(** Events that touch no file content. *)
Definition quiet (e : Event) : Prop :=
  match e with
  | EPrint _ | EMakedirs _ => True
  | EOpenW _ | EWrite _ _ => False
  end.

(** Concatenation of the strings written to one file. *)
Definition text_of (chunks : list string) : string := foldr String.append "" chunks.

(** *** The table as the specification sees it *)

Definition fields (row : string) : list string := Py.split Py.TAB row.
Definition field (i : nat) (row : string) : string := nth i (fields row) "".
Definition sample_id (row : string) : string := field SAMPLE_ID row.
Definition group_key (row : string) : string := field SUBLIBRARY_ID row.

(** A row is valid when it has at least 10 fields and neither its
    [sample_id] nor its [group_key] is empty. *)
Definition valid_row (row : string) : Prop :=
  10 ≤ length (fields row) ∧ sample_id row ≠ "" ∧ group_key row ≠ "".

Global Instance valid_row_dec row : Decision (valid_row row).
Proof. unfold valid_row. apply _. Defined.

(** The suffix-A and suffix-B records of a row. *)
Definition record_16S (row : string) : OutputRecord :=
  mkRecord (field 3 row) (field 5 row) (sample_id row +:+ "_16S").
Definition record_ITS1 (row : string) : OutputRecord :=
  mkRecord (field 7 row) (field 9 row) (sample_id row +:+ "_ITS1").
Definition records_of (row : string) : list OutputRecord :=
  [record_16S row; record_ITS1 row].

(** The valid rows of a group, in input order. *)
Definition rows_of_group (key : string) (rows : list string) : list string :=
  filter (λ row, valid_row row ∧ group_key row = key) rows.

(** The distinct non-empty [group_key] values among the rows that have at
    least 10 fields and a non-empty [sample_id]. *)
Definition distinct_group_keys (rows : list string) : list string :=
  remove_dups
    (filter (λ key, key ≠ "")
       (group_key <$>
          filter (λ row, 10 ≤ length (fields row) ∧ sample_id row ≠ "") rows)).

Definition output_path (output_dir key : string) : string :=
  Py.path_join output_dir (key +:+ "_tags.tsv").

(** What a group's file receives: for each of its rows, in order, the
    line of the 16S record and then the line of the ITS1 record. *)
Definition group_lines (key : string) (rows : list string) : list string :=
  rows_of_group key rows ≫= λ row,
    [format_record (record_16S row); format_record (record_ITS1 row)].

(** *** The loops read as functions

    [add_row] is the change that one iteration of the grouping loop makes
    to the dictionary, [skip_events] what it prints; [block_events] is
    what one iteration of the writing loop does. *)

Definition add_row (sublibraries : gmap string (list OutputRecord))
    (row : string) : gmap string (list OutputRecord) :=
  if decide (valid_row row) then
    <[group_key row :=
        default [] (sublibraries !! group_key row) ++ records_of row]> sublibraries
  else sublibraries.

Definition skip_events (row : string) : list Event :=
  if length (fields row) <? 10 then [EPrint (MSkipping (Py.slice_to 50 row))]
  else [].

Definition block_events (output_dir key : string)
    (samples : list OutputRecord) : list Event :=
  [EPrint (MProcessing key);
   EPrint (MSamples (length samples / 2) (length samples));
   EOpenW (output_path output_dir key)]
  ++ ((λ sample, EWrite (output_path output_dir key) (format_record sample))
        <$> samples)
  ++ [EPrint (MCreated (output_path output_dir key)); EPrint MExampleHeader]
  ++ ((λ sample, EPrint (MExample (forward_tag sample) (reverse_tag sample)
                           (sample_name sample))) <$> take 4 samples).

(** The records of a group, and the keys in the order of the writing loop. *)
Definition samples_of (key : string) (rows : list string) : list OutputRecord :=
  rows_of_group key rows ≫= records_of.

Definition written_keys (rows : list string) : list string :=
  Py.sorted (distinct_group_keys rows).

(** Everything a run of [process_lines] appends to the trace when there is
    a header line. *)
Definition process_events (lines : list string) (output_dir : string)
    : list Event :=
  let rows := data_lines lines in
  [EPrint (MReadLines (length lines));
   EPrint (MHeader (Py.split Py.TAB (Py.strip (hd "" lines))));
   EPrint (MDataRows (length rows));
   EMakedirs output_dir;
   EPrint (MOutputDir output_dir)]
  ++ (rows ≫= skip_events)
  ++ [EPrint (MFound (length (distinct_group_keys rows)))]
  ++ (written_keys rows ≫= λ key,
        block_events output_dir key (samples_of key rows))
  ++ [EPrint MComplete;
      EPrint (MCreatedTotal (length (distinct_group_keys rows)));
      EPrint MReady].

(** The files after the writing loop. *)
Definition output_files (output_dir : string) (rows : list string)
    (fs : gmap string string) : gmap string string :=
  foldl (λ fs key, <[output_path output_dir key := text_of (group_lines key rows)]> fs)
    fs (written_keys rows).

(** Summary of a whole run of [create_mapping_files] as a function of what
    the input path holds: [None] when it is absent. *)
Definition run_outcome (src : option string) : result unit :=
  match src with
  | Some content =>
      match Py.readlines content with [] => Raise IndexError | _ => Val tt end
  | None => Val tt
  end.

Definition run_events (input_file output_dir : string) (src : option string)
    : list Event :=
  EPrint (MReading input_file) ::
  match src with
  | Some content =>
      match Py.readlines content with
      | [] => [EPrint (MReadLines 0)]
      | lines => process_events lines output_dir
      end
  | None => [EPrint (MFileNotFound input_file)]
  end.

Definition run_files (output_dir : string) (src : option string)
    (fs : gmap string string) : gmap string string :=
  match src with
  | Some content =>
      match Py.readlines content with
      | [] => fs
      | lines => output_files output_dir (data_lines lines) fs
      end
  | None => fs
  end.

Definition run_dirs (output_dir : string) (src : option string)
    (ds : gset string) : gset string :=
  match src with
  | Some content =>
      match Py.readlines content with
      | [] => ds
      | _ => {[output_dir]} ∪ ds
      end
  | None => ds
  end.

(** A key that does not begin with the path separator. *)
Definition plain_key (key : string) : Prop :=
  match key with
  | String "/" _ => False
  | _ => True
  end.

(** The two lines of a row, written out. *)
Definition line_16S (row : string) : string :=
  field 3 row +:+ Py.tab +:+ field 5 row +:+ Py.tab
    +:+ (sample_id row +:+ "_16S") +:+ Py.nl.
Definition line_ITS1 (row : string) : string :=
  field 7 row +:+ Py.tab +:+ field 9 row +:+ Py.tab
    +:+ (sample_id row +:+ "_ITS1") +:+ Py.nl.

Definition example_row : string :=
  "S1" +:+ Py.tab +:+ "LIB01" +:+ Py.tab +:+ "p1" +:+ Py.tab +:+ "AAAA" +:+ Py.tab
  +:+ "p2" +:+ Py.tab +:+ "TTTT" +:+ Py.tab +:+ "p3" +:+ Py.tab +:+ "GGGG" +:+ Py.tab
  +:+ "p4" +:+ Py.tab +:+ "CCCC".

(** The reading of step 1 in which only trailing white space is trimmed:
    blank lines are dropped and the fields of a line are those of the line
    without its trailing white space. *)
Definition fields_trailing_trim_only (lines : list string) : list (list string) :=
  (λ line, Py.split Py.TAB (Py.rstrip line))
    <$> filter (λ line, Py.rstrip line ≠ "") (drop 1 lines).

(** A string that does not begin with white space. *)
Definition no_leading_space (s : string) : Prop :=
  match s with
  | "" => True
  | String c _ => Py.isspace c = false
  end.

(** A small table for the examples: a header, the row of the
    specification, a row of another sublibrary, a short row and a second
    row of the first sublibrary. *)
Definition tsv_row (cells : list string) : string := String.concat Py.tab cells.

Definition example_table : string :=
  tsv_row ["sample-id"; "sublibrary_id"] +:+ Py.nl
  +:+ example_row +:+ Py.nl
  +:+ tsv_row ["S2"; "LIB02"; "p1"; "ACGT"; "p2"; "TGCA"; "p3"; "GGCC"; "p4"; "CCGG"] +:+ Py.nl
  +:+ tsv_row ["S3"; "LIB03"; "p1"; "AAAA"; "p2"; "TTTT"; "p3"; "GGGG"] +:+ Py.nl
  +:+ tsv_row ["S4"; "LIB01"; "p1"; "CCCC"; "p2"; "GGGG"; "p3"; "TTTT"; "p4"; "AAAA"] +:+ Py.nl.

Definition example_world : World :=
  mkWorld {[ "in.tsv" := example_table ]} ∅ [].

(** The data rows of a table as step 1 of the specification gives them:
    the lines after the header, trailing white space trimmed, blank lines
    dropped.  A leading tab stays, so an empty first cell stays a cell. *)
Definition table_rows (lines : list string) : list string :=
  filter (λ row, row ≠ "") (Py.rstrip <$> drop 1 lines).

(** A table whose only data row has an empty [sample_id] cell, followed by
    ten more cells: sublibrary [LIB01] and nine others. *)
Definition empty_sample_id_row : string :=
  tsv_row [""; "LIB01"; "p1"; "AAAA"; "p2"; "TTTT"; "p3"; "GGGG"; "p4"; "CCCC"; "X"].

Definition empty_sample_id_table : string :=
  "h" +:+ Py.nl +:+ empty_sample_id_row +:+ Py.nl.

Definition empty_sample_id_world : World :=
  mkWorld {[ "in.tsv" := empty_sample_id_table ]} ∅ [].

(** A table whose only data row is the row of the specification preceded
    by a tab. *)
Definition leading_tab_table : string :=
  "sample-id" +:+ Py.nl +:+ Py.tab +:+ example_row +:+ Py.nl.

Definition leading_tab_world : World :=
  mkWorld {[ "in.tsv" := leading_tab_table ]} ∅ [].

(** *** The entry point

    [main] fixes the two paths and calls [create_mapping_files]. *)
Definition INPUT_FILE : string :=
  "qiime2/import/demux/stacks_sample_mapping_all_sublibraries.txt".
Definition OUTPUT_DIR : string := "qiime2/import/demux/internal_tag_mappings".

Definition main : M unit := create_mapping_files INPUT_FILE OUTPUT_DIR.

(** The lines that the run reported as skipped, in order. *)
Definition skip_messages (tr : list Event) : list string :=
  omap (λ e, match e with EPrint (MSkipping line50) => Some line50 | _ => None end) tr.

(** The sample counts that the run reported, one pair per sublibrary: the
    number of samples and the number of tag combinations. *)
Definition samples_messages (tr : list Event) : list (nat * nat) :=
  omap (λ e, match e with EPrint (MSamples half n) => Some (half, n) | _ => None end) tr.

(** The example table with two more rows at its end. *)
Definition example_more_rows : list string :=
  [tsv_row ["S5"; "LIB02"; "p1"; "AACC"; "p2"; "GGTT"; "p3"; "CCAA"; "p4"; "TTGG"];
   tsv_row ["S6"; "LIB04"; "p1"; "ACAC"; "p2"; "GTGT"; "p3"; "CACA"; "p4"; "TGTG"]].

Definition example_table_longer : string :=
  example_table
  +:+ tsv_row ["S5"; "LIB02"; "p1"; "AACC"; "p2"; "GGTT"; "p3"; "CCAA"; "p4"; "TTGG"] +:+ Py.nl
  +:+ tsv_row ["S6"; "LIB04"; "p1"; "ACAC"; "p2"; "GTGT"; "p3"; "CACA"; "p4"; "TGTG"] +:+ Py.nl.

Definition example_world_longer : World :=
  mkWorld {[ "in.tsv" := example_table_longer ]} ∅ [].

(** The example table with its data rows in another order, and a world
    that holds both tables. *)
Definition example_table_reordered : string :=
  tsv_row ["sample-id"; "sublibrary_id"] +:+ Py.nl
  +:+ tsv_row ["S4"; "LIB01"; "p1"; "CCCC"; "p2"; "GGGG"; "p3"; "TTTT"; "p4"; "AAAA"] +:+ Py.nl
  +:+ tsv_row ["S3"; "LIB03"; "p1"; "AAAA"; "p2"; "TTTT"; "p3"; "GGGG"] +:+ Py.nl
  +:+ tsv_row ["S2"; "LIB02"; "p1"; "ACGT"; "p2"; "TGCA"; "p3"; "GGCC"; "p4"; "CCGG"] +:+ Py.nl
  +:+ example_row +:+ Py.nl.

Definition example_world_reordered : World :=
  mkWorld {[ "in.tsv" := example_table_reordered ]} ∅ [].

(** A table without a header line: its first row is a data row. *)
Definition example_table_no_header : string :=
  example_row +:+ Py.nl
  +:+ tsv_row ["S2"; "LIB02"; "p1"; "ACGT"; "p2"; "TGCA"; "p3"; "GGCC"; "p4"; "CCGG"] +:+ Py.nl.

End Mapping.

(** ** [analyze_rarefaction_depth.py]: [extract_sample_stats] *)

Module Rarefaction.

(** The members of an opened archive in listing order: name and content. *)
Definition Archive : Type := list (string * string).

(** [zip_ref.namelist()] *)
Definition namelist (a : Archive) : list string := a.*1.

(** Content of the member that [zip_ref.open(name)] reads: [ZipFile] keeps
    one entry per name, the last one of the listing. *)
Fixpoint member (a : Archive) (name : string) : option string :=
  match a with
  | [] => None
  | (n, content) :: a' =>
      match member a' name with
      | Some later => Some later
      | None => if decide (n = name) then Some content else None
      end
  end.

Definition DATA_SUFFIX : string := "sample-frequency-detail.csv".

(** The loop [for file in file_list: if file.endswith(...): data_file = file; break],
    started with [data_file = None]. *)
Fixpoint find_data_file (file_list : list string) : option string :=
  match file_list with
  | [] => None
  | file :: rest =>
      if Py.endswith file DATA_SUFFIX then Some file else find_data_file rest
  end.

Definition result_map {A B} (f : A → B) (r : result A) : result B :=
  match r with
  | Val a => Val (f a)
  | Raise e => Raise e
  end.

Section extract_sample_stats.
(** The libraries are parameters: the table type of pandas, [pd.read_csv]
    on the text of a member, and the decoding of a zip container. *)
Variable DataFrame : Type.
Variable read_csv : string → result DataFrame.
Variable unzip : string → result Archive.

(** [zipfile.ZipFile(qzv_file, 'r')] *)
Definition ZipFile (qzv_file : string) : M Archive := λ w,
  match files w !! qzv_file with
  | Some bytes => (unzip bytes, w)
  | None => (Raise (FileNotFoundError qzv_file), w)
  end.

(** [zip_ref.open(name)] followed by [pd.read_csv(f)] *)
Definition open_read_csv (zip_ref : Archive) (name : string) : M DataFrame :=
  match member zip_ref name with
  | Some content => λ w, (read_csv content, w)
  | None => raise (KeyError name)
  end.

Definition extract_sample_stats (qzv_file : string) : M (option DataFrame) :=
  zip_ref ← ZipFile qzv_file;
  let file_list := namelist zip_ref in
  let data_file := find_data_file file_list in
  let not_found : M (option DataFrame) :=
    print (MNoFrequencyData qzv_file);;
    mret None in
  match data_file with
  | Some name =>
      if Py.truthy name then
        df ← open_read_csv zip_ref name;
        mret (Some df)
      else not_found
  | None => not_found
  end.
End extract_sample_stats.

(** An archive for the examples, with two members that match the suffix. *)
Definition example_archive : Archive :=
  [("metadata.yaml", "uuid");
   ("a1/data/sample-frequency-detail.csv", "id,frequency");
   ("a1/data/index.html", "html");
   ("a1/old/sample-frequency-detail.csv", "stale")].

Definition example_qzv_world : World :=
  mkWorld {[ "summary.qzv" := "zip" ]} ∅ [].

End Rarefaction.

(** * Facts about the string built-ins *)

Local Arguments String.append !_ _ / : simpl nomatch.

Section PyFacts.
Import Py.

Lemma app_nil_r_str (s : string) : s +:+ "" = s.
Proof. induction s; simpl; by f_equal. Qed.

Lemma app_assoc_str (a b c : string) : (a +:+ b) +:+ c = a +:+ b +:+ c.
Proof. induction a; simpl; by f_equal. Qed.

Lemma count_char_app c (a b : string) :
  count_char c (a +:+ b) = count_char c a + count_char c b.
Proof. induction a as [|x a IH]; simpl; [done|]. rewrite IH. lia. Qed.

Lemma split_not_nil sep s : split sep s ≠ [].
Proof.
  destruct s as [|c r]; simpl; [done|].
  destruct (Ascii.eqb c sep); [done|]. by destruct (split sep r).
Qed.

Lemma split_length sep s : length (split sep s) = S (count_char sep s).
Proof.
  induction s as [|c r IH]; simpl; [done|].
  destruct (Ascii.eqb c sep); simpl; [by rewrite IH|].
  destruct (split sep r) eqn:E; simpl in *; lia.
Qed.

Lemma split_no_sep sep s : Forall (λ f, count_char sep f = 0) (split sep s).
Proof.
  induction s as [|c r IH]; simpl; [by repeat constructor|].
  destruct (Ascii.eqb c sep) eqn:Ec; [by constructor|].
  destruct (split sep r) as [|f fs]; simpl.
  - repeat constructor. simpl. by rewrite Ec.
  - apply Forall_cons in IH as [Hf Hfs].
    constructor; [|done]. simpl. by rewrite Ec.
Qed.

Lemma truthy_true s : truthy s = true ↔ s ≠ "".
Proof. by destruct s. Qed.

Lemma truthy_false s : truthy s = false ↔ s = "".
Proof. by destruct s. Qed.
End PyFacts.

(** * Facts about the monad *)

Section MonadFacts.
Lemma bind_ret {A B} (a : A) (f : A → M B) : (mret a ≫= f) = f a.
Proof. reflexivity. Qed.

Lemma run_bind {A B} (m : M A) (f : A → M B) w :
  run (m ≫= f) w =
    match run m w with
    | (Val a, w') => run (f a) w'
    | (Raise e, w') => (Raise e, w')
    end.
Proof. reflexivity. Qed.

Lemma run_ret {A} (a : A) w : run (mret a) w = (Val a, w).
Proof. reflexivity. Qed.

Lemma run_emit e w :
  run (emit e) w = (Val tt, mkWorld (files w) (dirs w) (trace w ++ [e])).
Proof. reflexivity. Qed.

Lemma run_print m w :
  run (print m) w = (Val tt, mkWorld (files w) (dirs w) (trace w ++ [EPrint m])).
Proof. reflexivity. Qed.

Lemma run_makedirs path w :
  run (makedirs path) w =
    (Val tt, mkWorld (files w) ({[path]} ∪ dirs w) (trace w ++ [EMakedirs path])).
Proof. reflexivity. Qed.

Lemma run_open_w path w :
  run (open_w path) w =
    (Val tt, mkWorld (<[path := ""]> (files w)) (dirs w) (trace w ++ [EOpenW path])).
Proof. reflexivity. Qed.

Lemma run_file_write path data w :
  run (file_write path data) w =
    (Val tt,
     mkWorld (<[path := default "" (files w !! path) +:+ data]> (files w))
       (dirs w) (trace w ++ [EWrite path data])).
Proof. reflexivity. Qed.

Lemma run_raise {A} e w : run (raise (A := A) e) w = (Raise e, w).
Proof. reflexivity. Qed.

Lemma run_try {A} (m h : M A) w :
  run (try_except_FileNotFoundError m h) w =
    match run m w with
    | (Raise (FileNotFoundError _), w') => run h w'
    | r => r
    end.
Proof. reflexivity. Qed.

Lemma run_open_readlines path w :
  run (open_readlines path) w =
    match files w !! path with
    | Some content => (Val (Py.readlines content), w)
    | None => (Raise (FileNotFoundError path), w)
    end.
Proof. reflexivity. Qed.

Lemma getitem_nth {A} (l : list A) (i : nat) (d : A) :
  i < length l → getitem l i = mret (nth i l d).
Proof.
  intros Hi. unfold getitem.
  destruct (nth_lookup_or_length l i d) as [-> | Hge]; [done | lia].
Qed.
End MonadFacts.

(** * The grouping loop *)

(** One statement of a [do] block whose effect is known. *)
Ltac run_step lem :=
  rewrite run_bind, lem; cbv beta iota; simpl files; simpl dirs; simpl trace.

Section Grouping.
Import Py Mapping.

Lemma run_group_line sublibraries row w :
  run (group_line sublibraries row) w =
    (Val (add_row sublibraries row),
     mkWorld (files w) (dirs w) (trace w ++ skip_events row)).
Proof.
  unfold group_line, add_row, skip_events. fold (fields row).
  destruct (length (fields row) <? 10) eqn:Hlen.
  - apply Nat.ltb_lt in Hlen.
    rewrite decide_False; [done|]. unfold valid_row. lia.
  - apply Nat.ltb_ge in Hlen.
    unfold SAMPLE_ID, SUBLIBRARY_ID, S16_FORWARD_TAG, S16_REVERSE_TAG,
      ITS1_FORWARD_TAG, ITS1_REVERSE_TAG.
    rewrite !(getitem_nth _ _ "") by lia. rewrite !bind_ret.
    fold (field 0 row) (field 1 row) (field 3 row) (field 5 row)
      (field 7 row) (field 9 row).
    change (field 0 row) with (sample_id row).
    change (field 1 row) with (group_key row).
    destruct (truthy (sample_id row)) eqn:Hs; simpl.
    2:{ apply truthy_false in Hs. rewrite decide_False.
        - destruct w; simpl. by rewrite app_nil_r.
        - by intros (_ & ? & ?). }
    destruct (truthy (group_key row)) eqn:Hk; simpl.
    2:{ apply truthy_false in Hk. rewrite decide_False.
        - destruct w; simpl. by rewrite app_nil_r.
        - by intros (_ & ? & ?). }
    apply truthy_true in Hs, Hk.
    rewrite decide_True by done.
    unfold dict_append.
    destruct (sublibraries !! group_key row) as [samples|] eqn:Hget; simpl.
    + rewrite Hget, bind_ret, lookup_insert_eq, insert_insert_eq.
      rewrite <- (assoc_L (++)). destruct w; simpl. by rewrite app_nil_r.
    + rewrite lookup_insert_eq, bind_ret, lookup_insert_eq, !insert_insert_eq.
      destruct w; simpl. by rewrite app_nil_r.
Qed.

Lemma run_group_loop rows sublibraries w :
  run (for_fold rows group_line sublibraries) w =
    (Val (foldl add_row sublibraries rows),
     mkWorld (files w) (dirs w) (trace w ++ (rows ≫= skip_events))).
Proof.
  revert sublibraries w. induction rows as [|row rows IH]; intros subs w.
  - destruct w; simpl. by rewrite app_nil_r.
  - simpl. rewrite run_bind, run_group_line, IH. simpl.
    by rewrite <- (assoc_L (++)).
Qed.

Lemma rows_of_group_cons key row rows :
  rows_of_group key (row :: rows) =
    if decide (valid_row row ∧ group_key row = key)
    then row :: rows_of_group key rows else rows_of_group key rows.
Proof. unfold rows_of_group. by rewrite filter_cons. Qed.

Lemma lookup_grouped rows sublibraries key :
  foldl add_row sublibraries rows !! key =
    if decide (rows_of_group key rows = []) then sublibraries !! key
    else Some (default [] (sublibraries !! key) ++ samples_of key rows).
Proof.
  unfold samples_of.
  revert sublibraries. induction rows as [|row rows IH]; intros subs.
  - done.
  - simpl foldl. rewrite IH, rows_of_group_cons. unfold add_row.
    destruct (decide (valid_row row ∧ group_key row = key)) as [[Hv <-]|Hn].
    + rewrite (decide_True (P := valid_row row)) by done.
      rewrite lookup_insert_eq.
      rewrite (decide_False (P := _ :: _ = [])) by done. simpl.
      case_decide as Hnil.
      * rewrite Hnil. done.
      * by rewrite <- (assoc_L (++)).
    + destruct (decide (valid_row row)); [|done].
      by rewrite lookup_insert_ne by naive_solver.
Qed.

Lemma rows_of_group_nil key rows :
  rows_of_group key rows = [] ↔ key ∉ distinct_group_keys rows.
Proof.
  unfold rows_of_group, distinct_group_keys.
  rewrite elem_of_remove_dups, list_elem_of_filter, list_elem_of_fmap.
  split.
  - intros Hnil (Hne & row & -> & Hin).
    apply list_elem_of_filter in Hin as [[Hlen Hs] Hin].
    assert (row ∈ filter (λ r, valid_row r ∧ group_key r = group_key row) rows) as Hrow.
    { apply list_elem_of_filter. unfold valid_row. done. }
    rewrite Hnil in Hrow. by apply not_elem_of_nil in Hrow.
  - intros Hnot.
    destruct (filter (λ row, valid_row row ∧ group_key row = key) rows)
      as [|row l] eqn:Hrows; [done|].
    assert (row ∈ row :: l) as Hin by left. rewrite <- Hrows in Hin.
    apply list_elem_of_filter in Hin as [[(Hlen & Hs & Hk) <-] Hin].
    destruct Hnot. split; [done|].
    exists row. split; [done|]. by apply list_elem_of_filter.
Qed.

Lemma grouped_keys rows :
  (map_to_list (foldl add_row ∅ rows)).*1 ≡ₚ distinct_group_keys rows.
Proof.
  apply NoDup_Permutation.
  - apply NoDup_fst_map_to_list.
  - apply NoDup_remove_dups.
  - intros key. rewrite list_elem_of_fmap. split.
    + intros ([k samples] & -> & Hin). simpl.
      apply elem_of_map_to_list in Hin. rewrite lookup_grouped in Hin.
      case_decide as Hnil; [by rewrite lookup_empty in Hin|].
      destruct (decide (k ∈ distinct_group_keys rows)) as [|Hnot]; [done|].
      by apply rows_of_group_nil in Hnot.
    + intros Hin. exists (key, samples_of key rows). split; [done|].
      apply elem_of_map_to_list. rewrite lookup_grouped, lookup_empty.
      rewrite decide_False; [done|]. rewrite rows_of_group_nil. tauto.
Qed.

Lemma sorted_Permutation (l1 l2 : list string) :
  l1 ≡ₚ l2 → Py.sorted l1 = Py.sorted l2.
Proof.
  intros Hp. unfold sorted.
  apply (Sorted_unique String.le); try apply Sorted_merge_sort; try apply _.
  by rewrite !merge_sort_Permutation.
Qed.

Lemma lookup_grouped_key rows key :
  key ∈ distinct_group_keys rows →
  foldl add_row ∅ rows !! key = Some (samples_of key rows).
Proof.
  intros Hin. rewrite lookup_grouped, lookup_empty.
  rewrite decide_False; [done|]. rewrite rows_of_group_nil. tauto.
Qed.
End Grouping.

(** * The writing loop and the whole run *)

Section Writing.
Import Py Mapping.

Lemma run_print_each {A} (g : A → Msg) (l : list A) w :
  run (for_each l (λ x, print (g x))) w =
    (Val tt, mkWorld (files w) (dirs w) (trace w ++ ((λ x, EPrint (g x)) <$> l))).
Proof.
  revert w. induction l as [|x l IH]; intros w.
  - destruct w; simpl. by rewrite app_nil_r.
  - simpl for_each. rewrite run_bind, run_print. cbv beta iota.
    rewrite IH. simpl. by rewrite <- (assoc_L (++)).
Qed.

Lemma run_file_writes path (samples : list OutputRecord) w content :
  files w !! path = Some content →
  run (for_each samples (λ sample, file_write path (format_record sample))) w =
    (Val tt,
     mkWorld (<[path := content +:+ text_of (format_record <$> samples)]> (files w))
       (dirs w)
       (trace w ++ ((λ sample, EWrite path (format_record sample)) <$> samples))).
Proof.
  revert w content. induction samples as [|sample samples IH]; intros w content Hget.
  - destruct w; simpl in *. by rewrite app_nil_r, app_nil_r_str, insert_id.
  - simpl for_each. rewrite run_bind, run_file_write. cbv beta iota.
    rewrite Hget. simpl default.
    erewrite IH by (simpl; apply lookup_insert_eq). simpl.
    by rewrite insert_insert_eq, <- (assoc_L (++)), app_assoc_str.
Qed.

Lemma run_write_sublibrary output_dir sublibraries n key samples w :
  sublibraries !! key = Some samples →
  run (write_sublibrary output_dir sublibraries n key) w =
    (Val (n + 1),
     mkWorld (<[output_path output_dir key := text_of (format_record <$> samples)]> (files w))
       (dirs w)
       (trace w ++ block_events output_dir key samples)).
Proof.
  intros Hget. unfold write_sublibrary. rewrite Hget, bind_ret.
  fold (output_path output_dir key).
  do 2 (rewrite run_bind, run_print; cbv beta iota).
  rewrite run_bind, run_open_w. cbv beta iota.
  rewrite run_bind.
  erewrite run_file_writes by (simpl; apply lookup_insert_eq). cbv beta iota.
  do 2 (rewrite run_bind, run_print; cbv beta iota).
  rewrite run_bind, run_print_each. simpl.
  rewrite insert_insert_eq. unfold block_events.
  by rewrite <- !(assoc_L (++)).
Qed.

Lemma run_write_loop output_dir sublibraries keys n w :
  (∀ key, key ∈ keys → is_Some (sublibraries !! key)) →
  run (for_fold keys (write_sublibrary output_dir sublibraries) n) w =
    (Val (n + length keys),
     mkWorld
       (foldl (λ fs key,
                 <[output_path output_dir key :=
                     text_of (format_record <$> default [] (sublibraries !! key))]> fs)
          (files w) keys)
       (dirs w)
       (trace w ++ (keys ≫= λ key,
          block_events output_dir key (default [] (sublibraries !! key))))).
Proof.
  revert n w. induction keys as [|key keys IH]; intros n w Hkeys.
  - destruct w; simpl. by rewrite app_nil_r, Nat.add_0_r.
  - destruct (Hkeys key) as [samples Hget]; [left|].
    simpl for_fold. rewrite run_bind.
    rewrite (run_write_sublibrary _ _ _ _ samples) by done.
    cbv beta iota. rewrite IH by (intros; apply Hkeys; by right).
    rewrite bind_cons. simpl foldl. simpl length. simpl files. simpl dirs.
    simpl trace. rewrite Hget. simpl default.
    rewrite <- (assoc_L (++)). do 2 f_equal. lia.
Qed.

Lemma group_lines_samples key rows :
  group_lines key rows = format_record <$> samples_of key rows.
Proof.
  unfold group_lines, samples_of.
  induction (rows_of_group key rows) as [|row l IH]; [done|].
  rewrite !bind_cons, fmap_app, IH. done.
Qed.

Lemma insert_loop_ext (path : string → string) (f g : string → string)
    (keys : list string) (fs : gmap string string) :
  (∀ key, key ∈ keys → f key = g key) →
  foldl (λ fs key, <[path key := f key]> fs) fs keys =
  foldl (λ fs key, <[path key := g key]> fs) fs keys.
Proof.
  revert fs. induction keys as [|key keys IH]; intros fs Hfg; [done|].
  simpl. rewrite (Hfg key) by left. apply IH. intros; apply Hfg; by right.
Qed.

Lemma bind_loop_ext {A B} (f g : A → list B) (l : list A) :
  (∀ x, x ∈ l → f x = g x) → l ≫= f = l ≫= g.
Proof.
  induction l as [|x l IH]; intros Hfg; [done|].
  rewrite !bind_cons, (Hfg x) by left. f_equal. apply IH.
  intros; apply Hfg; by right.
Qed.

Lemma written_keys_elem key rows :
  key ∈ written_keys rows ↔ key ∈ distinct_group_keys rows.
Proof. unfold written_keys, sorted. by rewrite merge_sort_Permutation. Qed.

Lemma written_keys_length rows :
  length (written_keys rows) = length (distinct_group_keys rows).
Proof. unfold written_keys, sorted. by rewrite merge_sort_Permutation. Qed.

(** With a header line, [process_lines] returns normally and does
    exactly what [process_events] and [output_files] say. *)
Lemma run_process_lines line0 rest output_dir w :
  run (process_lines (line0 :: rest) output_dir) w =
    (Val tt,
     mkWorld (output_files output_dir (data_lines (line0 :: rest)) (files w))
       ({[output_dir]} ∪ dirs w)
       (trace w ++ process_events (line0 :: rest) output_dir)).
Proof.
  unfold process_lines, process_events, output_files.
  set (lines := line0 :: rest). set (rows := data_lines lines).
  run_step run_print.
  change (getitem lines 0) with (mret (M := M) line0). rewrite bind_ret.
  do 2 run_step run_print. run_step run_makedirs. run_step run_print.
  run_step run_group_loop. run_step run_print.
  rewrite (sorted_Permutation _ _ (grouped_keys rows)).
  fold (written_keys rows).
  rewrite run_bind, run_write_loop.
  2:{ intros key Hin. apply written_keys_elem in Hin.
      rewrite lookup_grouped_key by done. eauto. }
  cbv beta iota. simpl files. simpl dirs. simpl trace.
  do 2 run_step run_print.
  rewrite run_print. simpl files. simpl dirs. simpl trace.
  rewrite <- length_map_to_list, <- (length_fmap fst), (grouped_keys rows).
  rewrite written_keys_length. simpl hd.
  f_equal. f_equal.
  - apply insert_loop_ext. intros key Hin.
    apply written_keys_elem in Hin.
    by rewrite lookup_grouped_key, group_lines_samples.
  - rewrite (bind_loop_ext
      (λ key, block_events output_dir key (default [] (foldl add_row ∅ rows !! key)))
      (λ key, block_events output_dir key (samples_of key rows))).
    + by rewrite <- !(assoc_L (++)).
    + intros key Hin. apply written_keys_elem in Hin.
      by rewrite lookup_grouped_key.
Qed.

Lemma run_process_lines_nil output_dir w :
  run (process_lines [] output_dir) w =
    (Raise IndexError,
     mkWorld (files w) (dirs w) (trace w ++ [EPrint (MReadLines 0)])).
Proof. reflexivity. Qed.

(** The whole run, as a function of what the input path holds. *)
Theorem run_create_mapping_files input_file output_dir w :
  run (create_mapping_files input_file output_dir) w =
    (run_outcome (files w !! input_file),
     mkWorld (run_files output_dir (files w !! input_file) (files w))
       (run_dirs output_dir (files w !! input_file) (dirs w))
       (trace w ++ run_events input_file output_dir (files w !! input_file))).
Proof.
  unfold create_mapping_files, run_outcome, run_files, run_dirs, run_events.
  run_step run_print.
  rewrite run_bind, run_try, run_bind, run_open_readlines. simpl files.
  destruct (files w !! input_file) as [content|] eqn:Hsrc; cbv beta iota.
  - rewrite run_ret. cbv beta iota.
    destruct (readlines content) as [|line0 rest] eqn:Hlines.
    + rewrite run_process_lines_nil. simpl.
      by rewrite <- (assoc_L (++)).
    + rewrite run_process_lines. simpl files. simpl dirs. simpl trace.
      by rewrite <- (assoc_L (++)).
  - run_step run_print. rewrite run_ret. cbv beta iota. rewrite run_ret.
    by rewrite <- (assoc_L (++)).
Qed.
End Writing.

(** * Reading the trace of a run *)

Section Observers.
Import Py Mapping.

Lemma new_events_app w w' evs :
  trace w' = trace w ++ evs → new_events w w' = evs.
Proof. intros Htr. unfold new_events. rewrite Htr. apply drop_app_length. Qed.

Lemma new_events_run input_file output_dir w :
  new_events w (run (create_mapping_files input_file output_dir) w).2 =
    run_events input_file output_dir (files w !! input_file).
Proof. apply new_events_app. by rewrite run_create_mapping_files. Qed.

Lemma writes_to_open_quiet evs rest :
  Forall quiet evs → writes_to_open (evs ++ rest) = writes_to_open rest.
Proof.
  induction 1 as [|e evs He _ IH]; [done|]. by destruct e.
Qed.

Lemma files_written_quiet evs rest :
  Forall quiet evs → files_written (evs ++ rest) = files_written rest.
Proof.
  induction 1 as [|e evs He _ IH]; [done|]. by destruct e.
Qed.

Lemma writes_to_open_writes {A} path (g : A → string) (l : list A) rest :
  writes_to_open (((λ x, EWrite path (g x)) <$> l) ++ rest) =
    (g <$> l) ++ writes_to_open rest.
Proof. induction l as [|x l IH]; csimpl; [done|]. by rewrite IH. Qed.

Lemma files_written_writes {A} path (g : A → string) (l : list A) rest :
  files_written (((λ x, EWrite path (g x)) <$> l) ++ rest) = files_written rest.
Proof. induction l as [|x l IH]; csimpl; [done|]. by rewrite IH. Qed.

Lemma quiet_fmap_print {A} (g : A → Msg) (l : list A) :
  Forall quiet ((λ x, EPrint (g x)) <$> l).
Proof. induction l; by constructor. Qed.

Lemma quiet_skip_events rows : Forall quiet (rows ≫= skip_events).
Proof.
  induction rows as [|row rows IH]; [constructor|].
  rewrite bind_cons. apply Forall_app. split; [|done].
  unfold skip_events. case_match; by repeat constructor.
Qed.

Lemma writes_to_open_blocks output_dir (f : string → list OutputRecord) keys tail :
  Forall quiet tail →
  writes_to_open ((keys ≫= λ key, block_events output_dir key (f key)) ++ tail) = [].
Proof.
  intros Htail. destruct keys as [|key keys]; simpl.
  - rewrite <- (app_nil_r tail). by rewrite writes_to_open_quiet.
  - done.
Qed.

Lemma files_written_blocks output_dir (f : string → list OutputRecord) keys tail :
  Forall quiet tail →
  files_written ((keys ≫= λ key, block_events output_dir key (f key)) ++ tail) =
    (λ key, (output_path output_dir key, format_record <$> f key)) <$> keys.
Proof.
  intros Htail. induction keys as [|key keys IH].
  - simpl. rewrite <- (app_nil_r tail). by rewrite files_written_quiet.
  - rewrite bind_cons, fmap_cons. unfold block_events at 1.
    rewrite <- !(assoc_L (++)). simpl.
    rewrite writes_to_open_writes, files_written_writes. simpl.
    rewrite (writes_to_open_quiet _ _ (quiet_fmap_print _ _)).
    rewrite (files_written_quiet _ _ (quiet_fmap_print _ _)).
    rewrite writes_to_open_blocks by done. rewrite IH.
    by rewrite app_nil_r.
Qed.

Lemma files_written_process_events lines output_dir :
  files_written (process_events lines output_dir) =
    (λ key, (output_path output_dir key, group_lines key (data_lines lines)))
      <$> written_keys (data_lines lines).
Proof.
  unfold process_events. simpl.
  rewrite (files_written_quiet _ _ (quiet_skip_events _)). simpl.
  rewrite files_written_blocks by (repeat constructor).
  apply list_fmap_ext. intros _ key _. by rewrite group_lines_samples.
Qed.

(** The files written by a run, whatever the input path holds. *)
Lemma files_written_run input_file output_dir w :
  files_written
    (new_events w (run (create_mapping_files input_file output_dir) w).2) =
    match files w !! input_file with
    | Some content =>
        (λ key, (output_path output_dir key,
                 group_lines key (data_lines (readlines content))))
          <$> written_keys (data_lines (readlines content))
    | None => []
    end.
Proof.
  rewrite new_events_run. unfold run_events.
  destruct (files w !! input_file) as [content|]; [|done].
  destruct (readlines content) as [|line0 rest] eqn:Hlines; [done|].
  simpl. apply files_written_process_events.
Qed.
End Observers.

(** * Lines and line breaks *)

Section LineFacts.
Import Py.

Lemma is_newline_isspace c : is_newline c = true → isspace c = true.
Proof.
  unfold is_newline. rewrite orb_true_iff, !Ascii.eqb_eq.
  by intros [-> | ->].
Qed.

Lemma one_line_tail c r : one_line (String c r) = true → one_line r = true.
Proof. destruct r; simpl; [done|]. by intros [_ ?]%andb_true_iff. Qed.

Lemma no_newline_one_line s : no_newline s = true → one_line s = true.
Proof.
  induction s as [|c r IH]; [done|]. simpl no_newline.
  intros [Hc Hr]%andb_true_iff. destruct r; [done|].
  change (negb (is_newline c) && one_line (String a r) = true).
  by rewrite Hc, IH.
Qed.

Lemma one_line_lstrip s : one_line s = true → one_line (lstrip s) = true.
Proof.
  induction s as [|c r IH]; [done|]. intros Hs. simpl.
  destruct (isspace c); [|done]. eauto using one_line_tail.
Qed.

Lemma no_newline_rstrip s : one_line s = true → no_newline (rstrip s) = true.
Proof.
  induction s as [|c r IH]; [done|]. intros Hs.
  specialize (IH (one_line_tail _ _ Hs)). simpl.
  destruct (rstrip r) as [|c' r'] eqn:Hr.
  - destruct (isspace c) eqn:Hc; [done|]. simpl.
    destruct (is_newline c) eqn:Hn; [|done].
    apply is_newline_isspace in Hn. congruence.
  - destruct r as [|x r]; [done|].
    change (negb (is_newline c) && one_line (String x r) = true) in Hs.
    apply andb_true_iff in Hs as [Hc _].
    change (negb (is_newline c) && no_newline (String c' r') = true).
    by rewrite Hc, IH.
Qed.

Lemma no_newline_strip s : one_line s = true → no_newline (strip s) = true.
Proof. intros Hs. by apply no_newline_rstrip, one_line_lstrip. Qed.

Lemma one_line_cons c l :
  is_newline c = false → one_line l = true → one_line (String c l) = true.
Proof. intros Hc Hl. destruct l; [done|]. simpl in *. by rewrite Hc. Qed.

Lemma readlines_one_line_bounded n content :
  String.length content ≤ n →
  Forall (λ line, one_line line = true) (readlines content).
Proof.
  revert content. induction n as [|n IH]; intros [|c r] Hlen; simpl in *;
    try (constructor || lia).
  destruct (Ascii.eqb c LF) eqn:Hlf.
  { constructor; [done|]. apply IH. lia. }
  destruct (Ascii.eqb c CR) eqn:Hcr.
  { destruct r as [|c' r']; [by repeat constructor|].
    destruct (Ascii.eqb c' LF); (constructor; [done|]); apply IH;
      simpl in *; lia. }
  assert (Forall (λ line, one_line line = true) (readlines r)) as Hr
    by (apply IH; lia).
  destruct (readlines r) as [|l ls]; [by repeat constructor|].
  apply Forall_cons in Hr as [Hl Hls]. constructor; [|done].
  apply one_line_cons; [|done]. unfold is_newline. by rewrite Hlf, Hcr.
Qed.

Lemma readlines_one_line content :
  Forall (λ line, one_line line = true) (readlines content).
Proof. by apply (readlines_one_line_bounded (String.length content)). Qed.

Lemma no_newline_app a b :
  no_newline (a +:+ b) = no_newline a && no_newline b.
Proof. induction a as [|c a IH]; simpl; [done|]. by rewrite IH, andb_assoc. Qed.

Lemma no_newline_split sep s :
  no_newline s = true → Forall (λ f, no_newline f = true) (split sep s).
Proof.
  induction s as [|c r IH]; simpl; [by repeat constructor|].
  intros [Hc Hr]%andb_true_iff. specialize (IH Hr).
  destruct (Ascii.eqb c sep); [by constructor|].
  destruct (split sep r) as [|f fs]; simpl.
  - repeat constructor. simpl. by rewrite Hc.
  - apply Forall_cons in IH as [Hf Hfs]. constructor; [|done].
    simpl. by rewrite Hc, Hf.
Qed.

Lemma readlines_line body rest :
  no_newline body = true →
  readlines (body +:+ nl +:+ rest) = (body +:+ nl) :: readlines rest.
Proof.
  induction body as [|c body IH]; [done|]. simpl no_newline.
  intros [Hc Hb]%andb_true_iff. simpl.
  unfold is_newline in Hc. apply negb_true_iff, orb_false_iff in Hc as [-> ->].
  specialize (IH Hb). simpl in IH. by rewrite IH.
Qed.

Lemma readlines_last_line body :
  no_newline body = true → body ≠ "" → readlines body = [body].
Proof.
  induction body as [|c body IH]; [done|]. simpl no_newline.
  intros [Hc Hb]%andb_true_iff _. simpl.
  unfold is_newline in Hc. apply negb_true_iff, orb_false_iff in Hc as [-> ->].
  destruct body as [|c' body]; [done|]. by rewrite IH.
Qed.

Lemma readlines_nil content : readlines content = [] ↔ content = "".
Proof.
  split; [|by intros ->]. destruct content as [|c r]; [done|]. simpl.
  destruct (Ascii.eqb c LF); [done|].
  destruct (Ascii.eqb c CR).
  - destruct r as [|c' r']; [done|]. by destruct (Ascii.eqb c' LF).
  - by destruct (readlines r).
Qed.

Lemma readlines_text_of chunks :
  Forall (λ chunk, ∃ body, no_newline body = true ∧ chunk = body +:+ nl) chunks →
  readlines (Mapping.text_of chunks) = chunks.
Proof.
  induction 1 as [|chunk chunks (body & Hbody & ->) _ IH]; [done|].
  simpl. by rewrite app_assoc_str, readlines_line, IH.
Qed.
End LineFacts.

(** * Trimming *)

Section StripFacts.
Import Py Mapping.

Lemma lstrip_decompose s :
  ∃ pre, s = pre +:+ lstrip s ∧ all_space pre = true.
Proof.
  induction s as [|c r (pre & Hr & Hpre)]; [by exists ""|]. simpl.
  destruct (isspace c) eqn:Hc.
  - exists (String c pre). simpl. rewrite Hc, Hpre. split; [|done].
    by rewrite <- Hr.
  - by exists "".
Qed.

Lemma rstrip_decompose s :
  ∃ post, s = rstrip s +:+ post ∧ all_space post = true.
Proof.
  induction s as [|c r (post & Hr & Hpost)]; [by exists ""|]. simpl.
  destruct (rstrip r) as [|c' r'] eqn:Hstrip.
  - simpl in Hr. subst post. destruct (isspace c) eqn:Hc.
    + exists (String c r). simpl. by rewrite Hc, Hpost.
    + by exists r.
  - exists post. split; [|done]. by rewrite Hr at 1.
Qed.

Lemma strip_decompose s :
  ∃ pre post,
    s = pre +:+ strip s +:+ post ∧ all_space pre = true ∧ all_space post = true.
Proof.
  destruct (lstrip_decompose s) as (pre & Hs & Hpre).
  destruct (rstrip_decompose (lstrip s)) as (post & Hl & Hpost).
  exists pre, post. unfold strip. by rewrite <- Hl.
Qed.

Lemma lstrip_no_leading_space s : no_leading_space (lstrip s).
Proof.
  induction s as [|c r IH]; [done|]. simpl.
  by destruct (isspace c) eqn:Hc.
Qed.

Lemma rstrip_no_leading_space s :
  no_leading_space s → no_leading_space (rstrip s).
Proof.
  destruct s as [|c r]; [done|]. simpl. intros Hc.
  destruct (rstrip r); [by rewrite Hc|done].
Qed.

Lemma lstrip_fixed s : no_leading_space s → lstrip s = s.
Proof. destruct s as [|c r]; [done|]. simpl. by intros ->. Qed.

Lemma rstrip_idemp s : rstrip (rstrip s) = rstrip s.
Proof.
  induction s as [|c r IH]; [done|]. simpl.
  destruct (rstrip r) as [|c' r'] eqn:Hstrip.
  - destruct (isspace c) eqn:Hc; [done|]. simpl. by rewrite Hc.
  - simpl. simpl in IH. by rewrite IH.
Qed.

Lemma strip_no_leading_space s : no_leading_space (strip s).
Proof. apply rstrip_no_leading_space, lstrip_no_leading_space. Qed.

Lemma first_field_nonempty row :
  row ≠ "" → no_leading_space row → sample_id row ≠ "".
Proof.
  destruct row as [|c r]; [done|]. intros _ Hc.
  unfold sample_id, field, fields, SAMPLE_ID. simpl in *.
  destruct (Ascii.eqb c TAB) eqn:Htab.
  { apply Ascii.eqb_eq in Htab. by subst c. }
  by destruct (split TAB r).
Qed.

Lemma data_lines_elem row lines :
  row ∈ data_lines lines ↔
    ∃ line, line ∈ drop 1 lines ∧ row = strip line ∧ row ≠ "".
Proof.
  unfold data_lines. rewrite list_elem_of_fmap. split.
  - intros (line & -> & Hin). apply list_elem_of_filter in Hin as [Ht Hin].
    exists line. by rewrite <- truthy_true.
  - intros (line & Hin & -> & Hne). exists line. split; [done|].
    apply list_elem_of_filter. by rewrite truthy_true.
Qed.
End StripFacts.

(** * Rows, fields and output lines *)

Section RowFacts.
Import Py Mapping.

Lemma data_lines_no_newline content :
  Forall (λ row, no_newline row = true) (data_lines (readlines content)).
Proof.
  unfold data_lines. apply Forall_fmap, Forall_forall. intros line Hin.
  apply list_elem_of_filter in Hin as [_ Hin].
  apply no_newline_strip.
  pose proof (readlines_one_line content) as Hall.
  rewrite Forall_forall in Hall. apply Hall.
  by apply (subseteq_drop 1).
Qed.

Lemma field_no_newline i row :
  no_newline row = true → no_newline (field i row) = true.
Proof.
  intros Hrow. unfold field, fields.
  pose proof (no_newline_split TAB row Hrow) as Hall.
  destruct (nth_lookup_or_length (split TAB row) i "") as [Hi | Hi].
  - rewrite Forall_forall in Hall. apply Hall.
    by eapply list_elem_of_lookup_2.
  - by rewrite nth_overflow.
Qed.

Lemma field_no_tab i row : count_char TAB (field i row) = 0.
Proof.
  unfold field, fields.
  pose proof (split_no_sep TAB row) as Hall.
  destruct (nth_lookup_or_length (split TAB row) i "") as [Hi | Hi].
  - rewrite Forall_forall in Hall. apply Hall.
    by eapply list_elem_of_lookup_2.
  - by rewrite nth_overflow.
Qed.

Lemma format_record_16S row : format_record (record_16S row) = line_16S row.
Proof. done. Qed.

Lemma format_record_ITS1 row : format_record (record_ITS1 row) = line_ITS1 row.
Proof. done. Qed.

Lemma line_16S_tabs row : count_char TAB (line_16S row) = 2.
Proof.
  unfold line_16S, sample_id. by rewrite !count_char_app, !field_no_tab.
Qed.

Lemma line_ITS1_tabs row : count_char TAB (line_ITS1 row) = 2.
Proof.
  unfold line_ITS1, sample_id. by rewrite !count_char_app, !field_no_tab.
Qed.

Lemma line_16S_one_line row :
  no_newline row = true →
  ∃ body, no_newline body = true ∧ line_16S row = body +:+ nl.
Proof.
  intros Hrow.
  exists (field 3 row +:+ tab +:+ field 5 row +:+ tab +:+ (sample_id row +:+ "_16S")).
  split.
  - unfold sample_id. by rewrite !no_newline_app, !field_no_newline.
  - unfold line_16S. by rewrite !app_assoc_str.
Qed.

Lemma line_ITS1_one_line row :
  no_newline row = true →
  ∃ body, no_newline body = true ∧ line_ITS1 row = body +:+ nl.
Proof.
  intros Hrow.
  exists (field 7 row +:+ tab +:+ field 9 row +:+ tab +:+ (sample_id row +:+ "_ITS1")).
  split.
  - unfold sample_id. by rewrite !no_newline_app, !field_no_newline.
  - unfold line_ITS1. by rewrite !app_assoc_str.
Qed.

Lemma group_lines_length key rows :
  length (group_lines key rows) = 2 * length (rows_of_group key rows).
Proof.
  unfold group_lines. induction (rows_of_group key rows) as [|row l IH]; [done|].
  rewrite bind_cons. simpl. rewrite IH. lia.
Qed.

Lemma group_lines_elem key rows line :
  line ∈ group_lines key rows →
  ∃ row, row ∈ rows ∧ (line = line_16S row ∨ line = line_ITS1 row).
Proof.
  unfold group_lines. rewrite list_elem_of_bind. intros (row & Hline & Hrow).
  apply list_elem_of_filter in Hrow as [_ Hrow]. exists row. split; [done|].
  rewrite format_record_16S, format_record_ITS1 in Hline.
  apply elem_of_cons in Hline as [-> | Hline]; [by left|].
  apply list_elem_of_singleton in Hline. by right.
Qed.

(** Reading back what a group's file received gives its lines. *)
Lemma readlines_group_lines content key :
  let rows := data_lines (readlines content) in
  readlines (text_of (group_lines key rows)) = group_lines key rows.
Proof.
  intros rows. apply readlines_text_of, Forall_forall. intros line Hin.
  apply group_lines_elem in Hin as (row & Hrow & Hline).
  pose proof (data_lines_no_newline content) as Hall.
  rewrite Forall_forall in Hall. specialize (Hall row Hrow).
  destruct Hline as [-> | ->];
    eauto using line_16S_one_line, line_ITS1_one_line.
Qed.
End RowFacts.

(** * Output paths *)

Section PathFacts.
Import Py Mapping.

Lemma length_app_str (a b : string) :
  String.length (a +:+ b) = String.length a + String.length b.
Proof. induction a; simpl; by f_equal. Qed.

Lemma app_inj_r_str (a b s : string) : a +:+ s = b +:+ s → a = b.
Proof.
  revert b. induction a as [|c a IH]; intros [|c' b] Heq; simpl in *.
  - done.
  - apply (f_equal String.length) in Heq. simpl in Heq.
    rewrite length_app_str in Heq. lia.
  - apply (f_equal String.length) in Heq. simpl in Heq.
    rewrite length_app_str in Heq. lia.
  - injection Heq as -> Heq. f_equal. by apply IH.
Qed.

(** For a second component that is not absolute, [os.path.join] puts a
    prefix that depends on the directory only. *)
Lemma path_join_plain a :
  ∃ pre, ∀ b, plain_key b → path_join a b = pre +:+ b.
Proof.
  exists (if negb (truthy a) || endswith a "/" then a else a +:+ "/").
  intros b Hb. unfold path_join.
  destruct b as [|c b].
  - by destruct (negb (truthy a) || endswith a "/"); rewrite ?app_assoc_str.
  - assert (c ≠ "/"%char) as Hc.
    { intros ->. done. }
    destruct (negb (truthy a) || endswith a "/") eqn:Ha;
      destruct c as [[] [] [] [] [] [] [] []];
      try done; by rewrite ?app_assoc_str.
Qed.

Lemma plain_key_suffix key : plain_key key → plain_key (key +:+ "_tags.tsv").
Proof. by destruct key. Qed.

Lemma output_path_inj output_dir k1 k2 :
  plain_key k1 → plain_key k2 →
  output_path output_dir k1 = output_path output_dir k2 → k1 = k2.
Proof.
  intros H1 H2. unfold output_path.
  destruct (path_join_plain output_dir) as [pre Hpre].
  rewrite !Hpre by by apply plain_key_suffix.
  intros Heq%(inj _). by apply app_inj_r_str in Heq.
Qed.

Lemma distinct_group_keys_spec key rows :
  key ∈ distinct_group_keys rows ↔
    ∃ row, row ∈ rows ∧ valid_row row ∧ group_key row = key.
Proof.
  unfold distinct_group_keys, valid_row.
  rewrite elem_of_remove_dups, list_elem_of_filter, list_elem_of_fmap.
  split.
  - intros (Hne & row & -> & Hin).
    apply list_elem_of_filter in Hin as [[Hlen Hs] Hin]. by exists row.
  - intros (row & Hin & (Hlen & Hs & Hk) & <-). split; [done|].
    exists row. split; [done|]. by apply list_elem_of_filter.
Qed.

Lemma written_keys_NoDup rows : NoDup (written_keys rows).
Proof.
  unfold written_keys, sorted. rewrite merge_sort_Permutation.
  apply NoDup_remove_dups.
Qed.

Lemma written_keys_Permutation rows :
  written_keys rows ≡ₚ distinct_group_keys rows.
Proof. unfold written_keys, sorted. apply merge_sort_Permutation. Qed.

(** The writing loop as one map update. *)
Lemma insert_loop_union (path val : string → string) keys (fs : gmap string string) :
  foldl (λ fs key, <[path key := val key]> fs) fs keys =
    list_to_map (reverse ((λ key, (path key, val key)) <$> keys)) ∪ fs.
Proof.
  induction keys as [|key keys IH] using rev_ind.
  - simpl. by rewrite (left_id_L ∅ (∪)).
  - rewrite foldl_snoc, IH, fmap_app, reverse_app. simpl.
    by rewrite insert_union_l.
Qed.

Lemma output_files_idemp output_dir rows fs :
  output_files output_dir rows (output_files output_dir rows fs) =
    output_files output_dir rows fs.
Proof.
  unfold output_files.
  rewrite !(insert_loop_union (output_path output_dir)
              (λ key, text_of (group_lines key rows))).
  by rewrite (assoc_L (∪)), (idemp_L (∪)).
Qed.

Lemma lookup_insert_loop (path val : string → string) keys
    (fs : gmap string string) p :
  p ∈ path <$> keys →
  ∃ key, key ∈ keys ∧ path key = p
         ∧ foldl (λ fs key, <[path key := val key]> fs) fs keys !! p
           = Some (val key).
Proof.
  induction keys as [|key keys IH] using rev_ind; [by intros ?%elem_of_nil|].
  rewrite fmap_app, elem_of_app, foldl_snoc. intros Hin.
  destruct (decide (path key = p)) as [<- | Hne].
  - exists key. split_and!; [|done|by rewrite lookup_insert_eq].
    apply elem_of_app. right. by left.
  - destruct Hin as [Hin | Hin].
    + destruct (IH Hin) as (k & Hk & Hp & Hget). exists k.
      split_and!; [|done|by rewrite lookup_insert_ne].
      apply elem_of_app. by left.
    + apply list_elem_of_singleton in Hin. done.
Qed.

Lemma lookup_insert_loop_ne (path val : string → string) keys
    (fs : gmap string string) p :
  p ∉ path <$> keys →
  foldl (λ fs key, <[path key := val key]> fs) fs keys !! p = fs !! p.
Proof.
  induction keys as [|key keys IH] using rev_ind; [done|].
  rewrite fmap_app, not_elem_of_app, foldl_snoc. intros [Hkeys Hkey].
  rewrite lookup_insert_ne; [by apply IH|].
  intros <-. apply Hkey. by left.
Qed.

Lemma count_char_lstrip c s : count_char c (lstrip s) ≤ count_char c s.
Proof.
  induction s as [|x r IH]; [done|]. simpl.
  destruct (isspace x); simpl; lia.
Qed.

Lemma count_char_rstrip c s : count_char c (rstrip s) ≤ count_char c s.
Proof.
  induction s as [|x r IH]; [done|]. simpl.
  destruct (rstrip r) as [|x' r'] eqn:Hr.
  - destruct (isspace x); simpl in *; lia.
  - simpl in *. lia.
Qed.

Lemma short_rows_no_keys rows :
  Forall (λ row, length (fields row) < 10) rows → distinct_group_keys rows = [].
Proof.
  intros Hshort. unfold distinct_group_keys.
  replace (filter (λ row, 10 ≤ length (fields row) ∧ sample_id row ≠ "") rows)
    with (@nil string); [done|].
  symmetry. induction Hshort as [|row rows Hrow _ IH]; [done|].
  rewrite filter_cons_False; [done|]. lia.
Qed.

(** The text of an output file, read as an input table, has no valid row:
    its lines have three columns. *)
Lemma output_text_no_keys content key :
  distinct_group_keys
    (data_lines
       (readlines (text_of (group_lines key (data_lines (readlines content))))))
  = [].
Proof.
  rewrite readlines_group_lines. apply short_rows_no_keys, Forall_forall.
  intros row (line & Hin & -> & _)%data_lines_elem.
  apply (subseteq_drop 1) in Hin.
  apply group_lines_elem in Hin as (src & _ & Hline).
  unfold fields. rewrite split_length.
  pose proof (count_char_rstrip TAB (lstrip line)).
  pose proof (count_char_lstrip TAB line).
  assert (count_char TAB line = 2) as Htabs
    by (destruct Hline as [-> | ->]; auto using line_16S_tabs, line_ITS1_tabs).
  unfold strip. lia.
Qed.

Lemma group_lines_not_nil key rows :
  key ∈ written_keys rows → group_lines key rows ≠ [].
Proof.
  intros Hkey%written_keys_elem Hnil.
  apply (f_equal length) in Hnil. rewrite group_lines_length in Hnil.
  assert (rows_of_group key rows = []) as Hrows
    by (destruct (rows_of_group key rows); [done | simpl in Hnil; lia]).
  by apply rows_of_group_nil in Hrows.
Qed.

(** What the input path holds after a run: what it held before, or, when
    it is also the path of an output file, the text of a group. *)
Lemma input_after_run output_dir input_file (fs : gmap string string) :
  let src := fs !! input_file in
  run_files output_dir src fs !! input_file = src
  ∨ ∃ content key,
      src = Some content
      ∧ readlines content ≠ []
      ∧ key ∈ written_keys (data_lines (readlines content))
      ∧ run_files output_dir src fs !! input_file
        = Some (text_of (group_lines key (data_lines (readlines content)))).
Proof.
  intros src. unfold run_files.
  destruct src as [content|] eqn:Hsrc; [|by left].
  destruct (readlines content) as [|line0 rest] eqn:Hlines; [by left|].
  unfold output_files.
  set (rows := data_lines (line0 :: rest)).
  destruct (decide (input_file ∈ output_path output_dir <$> written_keys rows))
    as [Hin | Hnotin].
  - right.
    destruct (lookup_insert_loop (output_path output_dir)
                (λ key, text_of (group_lines key rows)) (written_keys rows)
                fs input_file Hin) as (key & Hkey & _ & Hget).
    exists content, key. rewrite Hlines. by fold rows.
  - left. by rewrite lookup_insert_loop_ne.
Qed.

(** A second run leaves the outcome, the files and the directories of the
    first run as they are. *)
Lemma rerun_same_state output_dir input_file fs ds :
  let src := fs !! input_file in
  let fs1 := run_files output_dir src fs in
  run_outcome (fs1 !! input_file) = run_outcome src
  ∧ run_files output_dir (fs1 !! input_file) fs1 = fs1
  ∧ run_dirs output_dir (fs1 !! input_file) (run_dirs output_dir src ds)
    = run_dirs output_dir src ds.
Proof.
  intros src fs1. subst src fs1.
  destruct (input_after_run output_dir input_file fs)
    as [Hsame | (content & key & Hsrc & Hlines & Hkey & Hget)].
  - rewrite Hsame. split_and!; [done| |].
    + unfold run_files. destruct (fs !! input_file) as [content|]; [|done].
      destruct (readlines content); [done|]. apply output_files_idemp.
    + unfold run_dirs. destruct (fs !! input_file) as [content|]; [|done].
      destruct (readlines content); [done|].
      by rewrite (assoc_L (∪)), (idemp_L (∪)).
  - rewrite Hget, Hsrc. unfold run_outcome, run_files, run_dirs.
    rewrite readlines_group_lines.
    pose proof (group_lines_not_nil _ _ Hkey) as Hne.
    pose proof (output_text_no_keys content key) as Hnokeys.
    rewrite readlines_group_lines in Hnokeys.
    destruct (group_lines key (data_lines (readlines content)))
      as [|l ls] eqn:Hgl; [done|].
    destruct (readlines content) as [|line0 rest] eqn:Hrl; [done|].
    split_and!; [done| |].
    + unfold output_files, written_keys. by rewrite Hnokeys.
    + by rewrite (assoc_L (∪)), (idemp_L (∪)).
Qed.

Lemma StronglySorted_strict (l : list string) :
  NoDup l → StronglySorted String.le l → StronglySorted (strict String.le) l.
Proof.
  intros Hnodup Hsorted.
  induction Hsorted as [|x l Hl IH Hx]; [constructor|].
  apply NoDup_cons in Hnodup as [Hnotin Hnd].
  constructor; [by apply IH|].
  rewrite Forall_forall in Hx |- *. intros y Hy. split; [by apply Hx|].
  intros Hyx. assert (x = y) as -> by (apply (anti_symm String.le); auto).
  done.
Qed.

Lemma written_keys_ascending rows :
  StronglySorted (strict String.le) (written_keys rows).
Proof.
  apply StronglySorted_strict; [apply written_keys_NoDup|].
  apply StronglySorted_merge_sort; apply _.
Qed.
End PathFacts.

(** * The properties of [create_mapping_files] *)

Section MappingClaims.
Import Py Mapping.

(** Over the rows as the code reads them ([data_lines]: every line after
    the first trimmed at both ends by [strip], blank lines dropped), the
    files opened for writing are, up to order, the paths of the distinct
    non-empty keys of the rows with at least 10 fields and a non-empty
    first field, one each; the run reports that number as [files_created]
    when it has a first line to read; and the paths are pairwise distinct
    when no key begins with the path separator. *)
Lemma files_opened_per_key_of_data_lines input_file output_dir w content :
  files w !! input_file = Some content →
  let w' := (run (create_mapping_files input_file output_dir) w).2 in
  let rows := data_lines (readlines content) in
  length (files_written (new_events w w')) = length (distinct_group_keys rows)
  ∧ (files_written (new_events w w')).*1
      ≡ₚ output_path output_dir <$> distinct_group_keys rows
  ∧ (readlines content ≠ [] →
     EPrint (MCreatedTotal (length (distinct_group_keys rows))) ∈ new_events w w')
  ∧ (Forall plain_key (distinct_group_keys rows) →
     NoDup (files_written (new_events w w')).*1).
Proof.
  intros Hsrc w' rows. subst w'.
  rewrite files_written_run, new_events_run, Hsrc. fold rows.
  rewrite <- list_fmap_compose.
  change (fst ∘ _) with (output_path output_dir).
  split_and!.
  - by rewrite !length_fmap, written_keys_length.
  - by rewrite written_keys_Permutation.
  - intros Hlines. unfold run_events.
    destruct (readlines content) as [|line0 rest] eqn:Hrl; [done|].
    fold rows. unfold process_events. right.
    rewrite !elem_of_app. do 4 right. fold rows.
    apply elem_of_cons. right. by left.
  - intros Hplain. rewrite Forall_forall in Hplain.
    apply NoDup_fmap_2_strong; [|apply written_keys_NoDup].
    intros k1 k2 H1%written_keys_elem H2%written_keys_elem.
    apply output_path_inj; auto.
Qed.

(** C1. On a table whose only data row has an empty [sample_id] cell the
    code does not do what C1 says.  The table has no row with at least 10
    fields and a non-empty [sample_id], hence no group key and, by C1, no
    file.  The code trims the line with [strip], which removes the leading
    tab: the cells move one position to the left, [LIB01] is read as the
    [sample_id] and [p1] as the sublibrary, the check for an empty
    [sample_id] does not fire, and the file [p1_tags.tsv] is created and
    counted. *)
Theorem C1_empty_sample_id_row_creates_file :
  let w' := (run (create_mapping_files "in.tsv" "out") empty_sample_id_world).2 in
  let rows := table_rows (readlines empty_sample_id_table) in
  rows = [empty_sample_id_row]
  ∧ length (fields empty_sample_id_row) = 11
  ∧ sample_id empty_sample_id_row = ""
  ∧ distinct_group_keys rows = []
  ∧ (files_written (new_events empty_sample_id_world w')).*1 = ["out/p1_tags.tsv"]
  ∧ EPrint (MCreatedTotal 1) ∈ new_events empty_sample_id_world w'.
Proof.
  split_and!; try by vm_compute.
  apply list_elem_of_In. vm_compute. tauto.
Qed.

(** Over the rows as the code reads them ([data_lines]), for every group,
    in the order in which the files are written, the number of strings
    written to the group's file, and the number of lines of the resulting
    text, is twice the number of rows with at least 10 fields and
    non-empty first and second field whose second field is the key of the
    group. *)
Lemma two_lines_per_row_of_data_lines input_file output_dir w content :
  files w !! input_file = Some content →
  let w' := (run (create_mapping_files input_file output_dir) w).2 in
  let rows := data_lines (readlines content) in
  Forall2
    (λ written key,
       written.1 = output_path output_dir key
       ∧ length written.2
           = 2 * length (filter (λ row, valid_row row ∧ group_key row = key) rows)
       ∧ length (readlines (text_of written.2))
           = 2 * length (filter (λ row, valid_row row ∧ group_key row = key) rows))
    (files_written (new_events w w'))
    (Py.sorted (distinct_group_keys rows)).
Proof.
  intros Hsrc w' rows. subst w'. rewrite files_written_run, Hsrc. fold rows.
  apply Forall2_fmap_l, Forall_Forall2_diag, Forall_forall.
  intros key _. simpl. split; [done|].
  unfold rows. rewrite readlines_group_lines. by rewrite group_lines_length.
Qed.

(** C2. On the table whose only data row has an empty [sample_id] cell
    the code produces a group that C2 does not allow.  The table has no
    valid row at all, so twice the number of valid rows of any key is 0.
    The code, having lost the leading tab to [strip], produces the group
    [p1] and writes two lines to its file, made of the cells that moved
    into the tag positions. *)
Theorem C2_empty_sample_id_row_writes_lines :
  let w' := (run (create_mapping_files "in.tsv" "out") empty_sample_id_world).2 in
  let rows := table_rows (readlines empty_sample_id_table) in
  filter valid_row rows = []
  ∧ filter (λ row, valid_row row ∧ group_key row = "p1") rows = []
  ∧ files_written (new_events empty_sample_id_world w') =
      [("out/p1_tags.tsv",
        ["p2" +:+ tab +:+ "p3" +:+ tab +:+ "LIB01_16S" +:+ nl;
         "p4" +:+ tab +:+ "X" +:+ tab +:+ "LIB01_ITS1" +:+ nl])]
  ∧ files w' !! "out/p1_tags.tsv" =
      Some ("p2" +:+ tab +:+ "p3" +:+ tab +:+ "LIB01_16S" +:+ nl
            +:+ "p4" +:+ tab +:+ "X" +:+ tab +:+ "LIB01_ITS1" +:+ nl).
Proof. split_and!; by vm_compute. Qed.



(** C4. With a header line followed by the single row of the
    specification, the run returns normally, finds one sublibrary and
    writes one file, [LIB01_tags.tsv] in the output directory, whose
    content is the line of [S1_16S] followed by the line of [S1_ITS1]. *)
Theorem C4_example_row input_file output_dir w header eol :
  no_newline header = true →
  eol = "" ∨ eol = nl →
  files w !! input_file = Some (header +:+ nl +:+ example_row +:+ eol) →
  let r := run (create_mapping_files input_file output_dir) w in
  r.1 = Val tt
  ∧ EPrint (MFound 1) ∈ new_events w r.2
  ∧ files_written (new_events w r.2) =
      [(path_join output_dir "LIB01_tags.tsv",
        ["AAAA" +:+ tab +:+ "TTTT" +:+ tab +:+ "S1_16S" +:+ nl;
         "GGGG" +:+ tab +:+ "CCCC" +:+ tab +:+ "S1_ITS1" +:+ nl])]
  ∧ files r.2 =
      <[path_join output_dir "LIB01_tags.tsv" :=
          "AAAA" +:+ tab +:+ "TTTT" +:+ tab +:+ "S1_16S" +:+ nl
          +:+ "GGGG" +:+ tab +:+ "CCCC" +:+ tab +:+ "S1_ITS1" +:+ nl]> (files w).
Proof.
  intros Hheader Heol Hsrc r.
  assert (readlines (header +:+ nl +:+ example_row +:+ eol)
          = [header +:+ nl; example_row +:+ eol]) as Hlines.
  { rewrite readlines_line by done. by destruct Heol as [-> | ->]. }
  assert (data_lines [header +:+ nl; example_row +:+ eol] = [example_row])
    as Hrows by (by destruct Heol as [-> | ->]).
  assert (written_keys [example_row] = ["LIB01"]) as Hkeys by by vm_compute.
  assert (distinct_group_keys [example_row] = ["LIB01"]) as Hdistinct
    by by vm_compute.
  subst r. rewrite files_written_run, new_events_run.
  rewrite run_create_mapping_files, Hsrc.
  unfold run_outcome, run_events, run_files, process_events, output_files.
  rewrite Hlines, Hrows, Hkeys, Hdistinct. split_and!.
  - done.
  - right. apply elem_of_app. right. apply elem_of_app. right. by left.
  - done.
  - done.
Qed.

Lemma C4_example_row_witness :
  no_newline "sample-id" = true
  ∧ (nl = "" ∨ nl = nl)
  ∧ files (mkWorld {[ "in.tsv" := "sample-id" +:+ nl +:+ example_row +:+ nl ]} ∅ [])
      !! "in.tsv" = Some ("sample-id" +:+ nl +:+ example_row +:+ nl)
  ∧ (run (create_mapping_files "in.tsv" "out")
       (mkWorld {[ "in.tsv" := "sample-id" +:+ nl +:+ example_row +:+ nl ]} ∅ [])).1
    = Val tt.
Proof.
  split_and!; [reflexivity | by right | reflexivity |].
  apply (C4_example_row "in.tsv" "out"
           (mkWorld {[ "in.tsv" := "sample-id" +:+ nl +:+ example_row +:+ nl ]} ∅ [])
           "sample-id" nl); [reflexivity | by right | reflexivity].
Defined.

(** C5. A second run with the same input file and output directory ends
    with the outcome, the files with their content, and the directories of
    the first run.  When the input file is as it was before the first run,
    the second run also produces the same events: each file of the first
    run is opened again and receives the same text (the content is
    replaced, not extended).  The files are opened in strictly ascending
    order of their group keys. *)
Theorem C5_rerun_idempotent input_file output_dir w :
  let r1 := run (create_mapping_files input_file output_dir) w in
  let r2 := run (create_mapping_files input_file output_dir) r1.2 in
  r2.1 = r1.1
  ∧ files r2.2 = files r1.2
  ∧ dirs r2.2 = dirs r1.2
  ∧ (files r1.2 !! input_file = files w !! input_file →
     new_events r1.2 r2.2 = new_events w r1.2
     ∧ files_written (new_events r1.2 r2.2) = files_written (new_events w r1.2))
  ∧ (∀ content, files w !! input_file = Some content →
       let keys := Py.sorted (distinct_group_keys (data_lines (readlines content))) in
       (files_written (new_events w r1.2)).*1 = output_path output_dir <$> keys
       ∧ StronglySorted (strict String.le) keys).
Proof.
  intros r1 r2.
  destruct (rerun_same_state output_dir input_file (files w) (dirs w))
    as (Hout & Hfiles & Hdirs).
  assert (r1 = (run_outcome (files w !! input_file),
                mkWorld (run_files output_dir (files w !! input_file) (files w))
                  (run_dirs output_dir (files w !! input_file) (dirs w))
                  (trace w ++ run_events input_file output_dir (files w !! input_file))))
    as Hr1 by apply run_create_mapping_files.
  assert (r2 = (run_outcome (files r1.2 !! input_file),
                mkWorld (run_files output_dir (files r1.2 !! input_file) (files r1.2))
                  (run_dirs output_dir (files r1.2 !! input_file) (dirs r1.2))
                  (trace r1.2 ++ run_events input_file output_dir (files r1.2 !! input_file))))
    as Hr2 by apply run_create_mapping_files.
  assert (new_events w r1.2 = run_events input_file output_dir (files w !! input_file))
    as Hev1 by apply new_events_run.
  assert (new_events r1.2 r2.2
          = run_events input_file output_dir (files r1.2 !! input_file))
    as Hev2 by apply new_events_run.
  rewrite Hev1, Hev2. clear Hev1 Hev2. rewrite Hr2. clear Hr2. clearbody r1.
  subst r1. simpl fst. simpl snd. simpl files. simpl dirs.
  split_and!; [done..| |].
  - by intros ->.
  - intros content Hsrc keys.
    rewrite <- new_events_run, files_written_run, Hsrc, <- list_fmap_compose.
    split; [done|]. apply written_keys_ascending.
Qed.

Lemma C5_rerun_idempotent_witness :
  let r1 := run (create_mapping_files "in.tsv" "out") example_world in
  let r2 := run (create_mapping_files "in.tsv" "out") r1.2 in
  files r1.2 !! "in.tsv" = files example_world !! "in.tsv"
  ∧ files r2.2 = files r1.2
  ∧ new_events r1.2 r2.2 = new_events example_world r1.2.
Proof.
  destruct (C5_rerun_idempotent "in.tsv" "out" example_world)
    as (_ & Hfiles & _ & Hevents & _).
  split_and!; [by vm_compute | exact Hfiles |].
  apply Hevents. by vm_compute.
Defined.

(** C9. Every line of every file that a run writes has exactly two tab
    characters, that is three tab-separated columns.  This holds for the
    text passed to each opened file and for the content of the file when
    the run ends. *)
Theorem C9_three_columns input_file output_dir w content :
  files w !! input_file = Some content →
  let w' := (run (create_mapping_files input_file output_dir) w).2 in
  let three_columns line :=
    count_char TAB line = 2 ∧ length (split TAB line) = 3 in
  (∀ path chunks, (path, chunks) ∈ files_written (new_events w w') →
     Forall three_columns (readlines (text_of chunks)))
  ∧ (∀ path, path ∈ (files_written (new_events w w')).*1 →
     ∃ text, files w' !! path = Some text
             ∧ Forall three_columns (readlines text)).
Proof.
  intros Hsrc w' three_columns.
  set (rows := data_lines (readlines content)).
  assert (∀ key, Forall three_columns (readlines (text_of (group_lines key rows))))
    as Hlines.
  { intros key. unfold rows. rewrite readlines_group_lines. fold rows.
    apply Forall_forall. intros line Hin.
    apply group_lines_elem in Hin as (row & _ & [-> | ->]); unfold three_columns;
      by rewrite split_length, ?line_16S_tabs, ?line_ITS1_tabs. }
  subst w'. rewrite files_written_run, Hsrc. fold rows. split.
  - intros path chunks Hin. apply list_elem_of_fmap in Hin as (key & [= -> ->] & _).
    apply Hlines.
  - intros path Hin. rewrite <- list_fmap_compose in Hin.
    rewrite run_create_mapping_files, Hsrc. simpl. unfold run_files.
    destruct (readlines content) as [|line0 rest] eqn:Hrl.
    { by apply elem_of_nil in Hin. }
    fold rows. unfold output_files.
    destruct (lookup_insert_loop (output_path output_dir)
                (λ key, text_of (group_lines key rows)) (written_keys rows)
                (files w) path Hin) as (key & _ & _ & ->).
    eauto.
Qed.

Lemma C9_three_columns_witness :
  files example_world !! "in.tsv" = Some example_table
  ∧ let w' := (run (create_mapping_files "in.tsv" "out") example_world).2 in
    ∀ path chunks, (path, chunks) ∈ files_written (new_events example_world w') →
      Forall (λ line, count_char TAB line = 2 ∧ length (split TAB line) = 3)
        (readlines (text_of chunks)).
Proof.
  split; [reflexivity|].
  apply (C9_three_columns "in.tsv" "out" example_world example_table).
  reflexivity.
Defined.

(** C6. When the input path does not exist, the run prints that the file
    was not found and returns without raising; the files and directories
    are unchanged, so the output directory is not created and nothing is
    written. *)
Theorem C6_missing_input input_file output_dir w :
  files w !! input_file = None →
  run (create_mapping_files input_file output_dir) w =
    (Val tt,
     mkWorld (files w) (dirs w)
       (trace w ++ [EPrint (MReading input_file);
                    EPrint (MFileNotFound input_file)])).
Proof. intros Hsrc. by rewrite run_create_mapping_files, Hsrc. Qed.

Lemma C6_missing_input_witness :
  files example_world !! "absent.tsv" = None
  ∧ run (create_mapping_files "absent.tsv" "out") example_world =
      (Val tt,
       mkWorld (files example_world) (dirs example_world)
         (trace example_world ++ [EPrint (MReading "absent.tsv");
                                  EPrint (MFileNotFound "absent.tsv")])).
Proof.
  split; [reflexivity|].
  apply (C6_missing_input "absent.tsv" "out" example_world). reflexivity.
Defined.

(** With a header line and no data row the run returns normally and
    writes no file. *)
Lemma header_only_no_files input_file output_dir w header eol :
  no_newline header = true →
  header ≠ "" ∨ eol = nl →
  eol = "" ∨ eol = nl →
  files w !! input_file = Some (header +:+ eol) →
  let r := run (create_mapping_files input_file output_dir) w in
  r.1 = Val tt ∧ files r.2 = files w ∧ files_written (new_events w r.2) = [].
Proof.
  intros Hheader Hne Heol Hsrc r.
  assert (readlines (header +:+ eol) = [header +:+ eol]) as Hlines.
  { destruct Heol as [-> | ->].
    - rewrite app_nil_r_str. apply readlines_last_line; [done|].
      by destruct Hne.
    - rewrite <- (app_nil_r_str nl), readlines_line by done.
      by rewrite app_nil_r_str. }
  subst r. rewrite files_written_run.
  rewrite run_create_mapping_files, Hsrc.
  unfold run_outcome, run_files. by rewrite Hlines.
Qed.

(** An input file without any line makes the run raise, in every world. *)
Lemma empty_input_raises input_file output_dir w :
    files w !! input_file = Some "" →
    run (create_mapping_files input_file output_dir) w =
      (Raise IndexError,
       mkWorld (files w) (dirs w)
         (trace w ++ [EPrint (MReading input_file); EPrint (MReadLines 0)])).
Proof. intros Hsrc. by rewrite run_create_mapping_files, Hsrc. Qed.

(** C7. On an input file that is present and has no line at all, the run
    raises [IndexError] at [lines[0]]: it does not complete without an
    error.  No file is written and no directory is created. *)
Theorem C7_empty_file_raises :
  run (create_mapping_files "in.tsv" "out") (mkWorld {[ "in.tsv" := "" ]} ∅ []) =
    (Raise IndexError,
     mkWorld {[ "in.tsv" := "" ]} ∅
       [EPrint (MReading "in.tsv"); EPrint (MReadLines 0)]).
Proof. by rewrite run_create_mapping_files. Qed.

(** C8. On a line that begins with a tab the code does not keep the
    field positions.  With trailing white space trimmed only, the row of
    the specification preceded by a tab has an empty first field followed
    by the ten fields of the row, and would be left out for its empty
    [sample_id].  The code trims with [strip], loses the tab, reads [S1]
    as the first field, and so the check for an empty [sample_id] cannot
    fire: the row is grouped and its two lines are written. *)
Theorem C8_leading_tab_shifts_fields :
  let lines := readlines leading_tab_table in
  let w' := (run (create_mapping_files "in.tsv" "out") leading_tab_world).2 in
  lines = ["sample-id" +:+ nl; tab +:+ example_row +:+ nl]
  ∧ fields_trailing_trim_only lines = [ "" :: fields example_row ]
  ∧ fields <$> data_lines lines = [ fields example_row ]
  ∧ sample_id <$> data_lines lines = [ "S1" ]
  ∧ (files_written (new_events leading_tab_world w')).*1 = ["out/LIB01_tags.tsv"].
Proof. split_and!; by vm_compute. Qed.

(** What the code does with each line after the first: it trims white
    space at both ends and drops the line when nothing remains.  What
    [strip] leaves is the line without a prefix and a suffix of white
    space, and neither begins nor ends with white space; hence no row that
    reaches the grouping loop has an empty first field, and the check for
    an empty [sample_id] there never fires. *)
Lemma data_lines_trimmed_at_both_ends lines :
  fields <$> data_lines lines =
    (λ line, split TAB (rstrip (lstrip line)))
      <$> filter (λ line, rstrip (lstrip line) ≠ "") (drop 1 lines)
  ∧ (∀ line, ∃ pre post,
       line = pre +:+ strip line +:+ post
       ∧ all_space pre = true ∧ all_space post = true
       ∧ lstrip (strip line) = strip line
       ∧ rstrip (strip line) = strip line)
  ∧ Forall (λ row, no_leading_space row ∧ sample_id row ≠ "") (data_lines lines).
Proof.
  split_and!.
  - unfold data_lines. rewrite <- list_fmap_compose. f_equal.
    apply list_filter_iff. intros line. apply truthy_true.
  - intros line. destruct (strip_decompose line) as (pre & post & H1 & H2 & H3).
    exists pre, post. split_and!; [done..| |].
    + apply lstrip_fixed, strip_no_leading_space.
    + apply rstrip_idemp.
  - apply Forall_forall. intros row (line & _ & -> & Hne)%data_lines_elem.
    split; [apply strip_no_leading_space|].
    apply first_field_nonempty; [done|apply strip_no_leading_space].
Qed.

End MappingClaims.

(** * The property of [extract_sample_stats] *)

Section RarefactionClaims.
Import Py Rarefaction.

Lemma find_data_file_None file_list :
  find_data_file file_list = None ↔
    Forall (λ name, endswith name DATA_SUFFIX = false) file_list.
Proof.
  induction file_list as [|file rest IH]; simpl.
  - split; [constructor|done].
  - rewrite Forall_cons. destruct (endswith file DATA_SUFFIX).
    + split; [done|]. by intros [? _].
    + rewrite IH. tauto.
Qed.

Lemma run_ZipFile unzip qzv_file w :
  run (ZipFile unzip qzv_file) w =
    match files w !! qzv_file with
    | Some bytes => (unzip bytes, w)
    | None => (Raise (FileNotFoundError qzv_file), w)
    end.
Proof. reflexivity. Qed.

Lemma run_open_read_csv {DataFrame} (read_csv : string → result DataFrame)
    zip_ref name w :
  run (open_read_csv DataFrame read_csv zip_ref name) w =
    match member zip_ref name with
    | Some content => (read_csv content, w)
    | None => (Raise (KeyError name), w)
    end.
Proof. unfold open_read_csv. by destruct (member zip_ref name). Qed.

Lemma find_data_file_first before name after :
  Forall (λ n, endswith n DATA_SUFFIX = false) before →
  endswith name DATA_SUFFIX = true →
  find_data_file (before ++ name :: after) = Some name.
Proof.
  intros Hbefore Hname.
  induction Hbefore as [|n before Hn _ IH]; simpl; [by rewrite Hname|].
  by rewrite Hn.
Qed.

Lemma find_data_file_Some file_list name :
  find_data_file file_list = Some name →
  name ∈ file_list ∧ endswith name DATA_SUFFIX = true.
Proof.
  induction file_list as [|file rest IH]; simpl; [done|].
  destruct (endswith file DATA_SUFFIX) eqn:Hfile.
  - intros [= ->]. split; [by left|done].
  - intros [Hin Hname]%IH. split; [by right|done].
Qed.

Lemma endswith_suffix_truthy name :
  endswith name DATA_SUFFIX = true → truthy name = true.
Proof. by destruct name. Qed.

Lemma member_is_Some (zip_ref : Archive) name :
  name ∈ namelist zip_ref → is_Some (member zip_ref name).
Proof.
  unfold namelist.
  induction zip_ref as [|[n content] zip_ref IH]; csimpl.
  - by intros ?%elem_of_nil.
  - intros Hin. destruct (member zip_ref name) as [later|] eqn:Hlater; [eauto|].
    apply elem_of_cons in Hin as [-> | Hin].
    + rewrite decide_True by done. eauto.
    + destruct (IH Hin) as [? ?]. done.
Qed.

(** C10. [extract_sample_stats] returns [None] exactly when no name of
    the archive's listing ends in [sample-frequency-detail.csv], and then
    it has printed the diagnostic and done nothing else; otherwise its
    result is that of [pd.read_csv] on the member designated by the first
    such name of the listing, and nothing is printed. *)
Theorem C10_extract_sample_stats (DataFrame : Type)
    (read_csv : string → result DataFrame) (unzip : string → result Archive)
    qzv_file w bytes zip_ref :
  files w !! qzv_file = Some bytes →
  unzip bytes = Val zip_ref →
  let r := run (extract_sample_stats DataFrame read_csv unzip qzv_file) w in
  (r.1 = Val None ↔
     Forall (λ name, endswith name DATA_SUFFIX = false) (namelist zip_ref))
  ∧ (r.1 = Val None →
     r.2 = mkWorld (files w) (dirs w)
             (trace w ++ [EPrint (MNoFrequencyData qzv_file)]))
  ∧ (∀ before name after,
       namelist zip_ref = before ++ name :: after →
       Forall (λ n, endswith n DATA_SUFFIX = false) before →
       endswith name DATA_SUFFIX = true →
       ∃ content, member zip_ref name = Some content
                  ∧ r = (result_map Some (read_csv content), w)).
Proof.
  intros Hsrc Hzip r.
  assert (r = match find_data_file (namelist zip_ref) with
              | Some name =>
                  match member zip_ref name with
                  | Some content => (result_map Some (read_csv content), w)
                  | None => (Raise (KeyError name), w)
                  end
              | None =>
                  (Val None,
                   mkWorld (files w) (dirs w)
                     (trace w ++ [EPrint (MNoFrequencyData qzv_file)]))
              end) as Hr.
  { subst r. unfold extract_sample_stats.
    rewrite run_bind, run_ZipFile, Hsrc, Hzip. cbv beta iota.
    destruct (find_data_file (namelist zip_ref)) as [name|] eqn:Hfind; [|done].
    apply find_data_file_Some in Hfind as [Hin Hname].
    rewrite (endswith_suffix_truthy _ Hname).
    rewrite run_bind, run_open_read_csv.
    destruct (member zip_ref name) as [content|]; [|done].
    by destruct (read_csv content). }
  split_and!.
  - rewrite <- find_data_file_None, Hr.
    destruct (find_data_file (namelist zip_ref)) as [name|] eqn:Hfind; [|done].
    apply find_data_file_Some in Hfind as [Hin Hname].
    destruct (member_is_Some _ _ Hin) as [content ->].
    split; [|done]. by destruct (read_csv content).
  - rewrite Hr.
    destruct (find_data_file (namelist zip_ref)) as [name|] eqn:Hfind; [|done].
    apply find_data_file_Some in Hfind as [Hin Hname].
    destruct (member_is_Some _ _ Hin) as [content ->].
    by destruct (read_csv content).
  - intros before name after Hlist Hbefore Hname.
    assert (name ∈ namelist zip_ref) as Hin.
    { rewrite Hlist. apply elem_of_app. right. by left. }
    destruct (member_is_Some _ _ Hin) as [content Hmember].
    exists content. split; [done|].
    by rewrite Hr, Hlist, find_data_file_first, Hmember.
Qed.

Lemma C10_extract_sample_stats_witness :
  files example_qzv_world !! "summary.qzv" = Some "zip"
  ∧ (λ _, Val example_archive) "zip" = Val example_archive
  ∧ run (extract_sample_stats string Val (λ _, Val example_archive) "summary.qzv")
      example_qzv_world
    = (Val (Some "id,frequency"), example_qzv_world).
Proof.
  split_and!; [reflexivity..|].
  destruct (C10_extract_sample_stats string Val (λ _, Val example_archive)
              "summary.qzv" example_qzv_world "zip" example_archive
              eq_refl eq_refl) as (_ & _ & Hfirst).
  destruct (Hfirst ["metadata.yaml"] "a1/data/sample-frequency-detail.csv"
              ["a1/data/index.html"; "a1/old/sample-frequency-detail.csv"]
              eq_refl) as (content & Hmember & Hrun).
  - by repeat constructor.
  - reflexivity.
  - rewrite Hrun. injection Hmember as <-. reflexivity.
Defined.

End RarefactionClaims.

(** * Further properties of [create_mapping_files] *)

Section MappingFrame.
Import Py Mapping.

Lemma substring_all s : String.substring 0 (String.length s) s = s.
Proof. induction s as [|c r IH]; simpl; [done|]. by rewrite IH. Qed.

Lemma substring_skip_app a s m :
  String.substring (String.length a) m (a +:+ s) = String.substring 0 m s.
Proof. induction a as [|c a IH]; simpl; [done|]. apply IH. Qed.

Lemma endswith_app a s : endswith (a +:+ s) s = true.
Proof.
  unfold endswith. rewrite length_app_str.
  rewrite (proj2 (Nat.leb_le _ _)) by lia.
  replace (String.length a + String.length s - String.length s)
    with (String.length a) by lia.
  rewrite substring_skip_app, substring_all. apply String.eqb_refl.
Qed.

Lemma path_join_suffix a b : ∃ pre, path_join a b = pre +:+ b.
Proof.
  unfold path_join.
  assert (∃ pre, (if negb (truthy a) || endswith a "/" then a +:+ b
                  else a +:+ "/" +:+ b) = pre +:+ b) as Hrel.
  { destruct (negb (truthy a) || endswith a "/").
    - by exists a.
    - exists (a +:+ "/"). by rewrite app_assoc_str. }
  destruct b as [|c b]; [done|].
  destruct c as [[] [] [] [] [] [] [] []]; try done. by exists "".
Qed.

Lemma output_path_endswith output_dir key :
  endswith (output_path output_dir key) "_tags.tsv" = true.
Proof.
  unfold output_path.
  destruct (path_join_suffix output_dir (key +:+ "_tags.tsv")) as [pre ->].
  rewrite <- app_assoc_str. apply endswith_app.
Qed.

(** A path that does not end in [_tags.tsv] keeps what it holds. *)
Lemma run_files_frame output_dir src (fs : gmap string string) path :
  endswith path "_tags.tsv" = false →
  run_files output_dir src fs !! path = fs !! path.
Proof.
  intros Hpath. unfold run_files. destruct src as [content|]; [|done].
  destruct (readlines content) as [|line0 rest]; [done|].
  unfold output_files. apply lookup_insert_loop_ne.
  intros (key & -> & _)%list_elem_of_fmap.
  by rewrite output_path_endswith in Hpath.
Qed.

Lemma no_keys_no_files output_dir rows (fs : gmap string string) :
  distinct_group_keys rows = [] → output_files output_dir rows fs = fs.
Proof. intros Hkeys. unfold output_files, written_keys. by rewrite Hkeys. Qed.

Lemma no_valid_row_no_keys rows :
  Forall (λ row, ¬ valid_row row) rows → distinct_group_keys rows = [].
Proof.
  intros Hrows. rewrite Forall_forall in Hrows.
  destruct (distinct_group_keys rows) as [|key keys] eqn:Hkeys; [done|].
  assert (key ∈ distinct_group_keys rows) as Hin by (rewrite Hkeys; left).
  apply distinct_group_keys_spec in Hin as (row & Hrow & Hvalid & _).
  by destruct (Hrows row Hrow).
Qed.

(** X2. A run changes no file whose name does not end in [_tags.tsv]:
    such a path holds after the run what it held before, and every path
    that the run opens for writing ends in [_tags.tsv]. *)
Theorem X2_only_tags_files_touched input_file output_dir w path :
  endswith path "_tags.tsv" = false →
  let w' := (run (create_mapping_files input_file output_dir) w).2 in
  files w' !! path = files w !! path
  ∧ ¬ (path ∈ (files_written (new_events w w')).*1)
  ∧ Forall (λ opened, endswith opened "_tags.tsv" = true)
      (files_written (new_events w w')).*1.
Proof.
  intros Hpath w'.
  assert (Forall (λ opened, endswith opened "_tags.tsv" = true)
            (files_written (new_events w w')).*1) as Hall.
  { subst w'. rewrite files_written_run.
    destruct (files w !! input_file) as [content|]; [|constructor].
    rewrite <- list_fmap_compose. apply Forall_fmap, Forall_forall.
    intros key _. apply output_path_endswith. }
  split_and!; [| |done].
  - subst w'. rewrite run_create_mapping_files. simpl.
    by apply run_files_frame.
  - intros Hin. rewrite Forall_forall in Hall. specialize (Hall _ Hin).
    congruence.
Qed.

Lemma X2_only_tags_files_touched_witness :
  endswith "in.tsv" "_tags.tsv" = false
  ∧ files (run (create_mapping_files "in.tsv" "out") example_world).2 !! "in.tsv"
    = files example_world !! "in.tsv".
Proof.
  split; [reflexivity|].
  apply (X2_only_tags_files_touched "in.tsv" "out" example_world "in.tsv").
  reflexivity.
Defined.

(** X3. [main] never changes its input file, whatever the table holds, and
    a second call of [main] repeats the first: same outcome, same files,
    same directories and the same events, so every tag file is written
    again with the same content. *)
Theorem X3_main_rerun w :
  let r1 := run main w in
  let r2 := run main r1.2 in
  files r1.2 !! INPUT_FILE = files w !! INPUT_FILE
  ∧ r2.1 = r1.1
  ∧ files r2.2 = files r1.2
  ∧ dirs r2.2 = dirs r1.2
  ∧ new_events r1.2 r2.2 = new_events w r1.2.
Proof.
  intros r1 r2.
  assert (files r1.2 !! INPUT_FILE = files w !! INPUT_FILE) as Hinput.
  { subst r1. unfold main. rewrite run_create_mapping_files. simpl.
    by apply run_files_frame. }
  destruct (rerun_same_state OUTPUT_DIR INPUT_FILE (files w) (dirs w))
    as (Hout & Hfiles & Hdirs).
  assert (new_events w r1.2 = run_events INPUT_FILE OUTPUT_DIR (files w !! INPUT_FILE))
    as Hev1 by apply new_events_run.
  assert (new_events r1.2 r2.2
          = run_events INPUT_FILE OUTPUT_DIR (files r1.2 !! INPUT_FILE))
    as Hev2 by apply new_events_run.
  assert (r2 = (run_outcome (files r1.2 !! INPUT_FILE),
                mkWorld (run_files OUTPUT_DIR (files r1.2 !! INPUT_FILE) (files r1.2))
                  (run_dirs OUTPUT_DIR (files r1.2 !! INPUT_FILE) (dirs r1.2))
                  (trace r1.2 ++ run_events INPUT_FILE OUTPUT_DIR (files r1.2 !! INPUT_FILE))))
    as Hr2 by apply run_create_mapping_files.
  assert (r1 = (run_outcome (files w !! INPUT_FILE),
                mkWorld (run_files OUTPUT_DIR (files w !! INPUT_FILE) (files w))
                  (run_dirs OUTPUT_DIR (files w !! INPUT_FILE) (dirs w))
                  (trace w ++ run_events INPUT_FILE OUTPUT_DIR (files w !! INPUT_FILE))))
    as Hr1 by apply run_create_mapping_files.
  cbv zeta in Hout, Hfiles, Hdirs.
  rewrite run_files_frame in Hout, Hfiles, Hdirs by reflexivity.
  rewrite Hev1, Hev2, Hinput. split; [done|].
  rewrite Hr2, Hinput. clear Hr2 Hev1 Hev2 Hinput. clearbody r1. subst r1.
  simpl fst. simpl snd. simpl files. simpl dirs. done.
Qed.

End MappingFrame.

Section MappingEdges.
Import Py Mapping.

(** X4. When the input has at least one line and no data row is valid (in
    particular when it has a header line only), the run returns normally,
    creates the output directory all the same, opens no file, leaves every
    file as it was and reports zero sublibraries and zero files. *)
Theorem X4_no_valid_row input_file output_dir w content :
  files w !! input_file = Some content →
  content ≠ "" →
  Forall (λ row, ¬ valid_row row) (data_lines (readlines content)) →
  let r := run (create_mapping_files input_file output_dir) w in
  r.1 = Val tt
  ∧ files r.2 = files w
  ∧ dirs r.2 = {[output_dir]} ∪ dirs w
  ∧ files_written (new_events w r.2) = []
  ∧ EMakedirs output_dir ∈ new_events w r.2
  ∧ EPrint (MFound 0) ∈ new_events w r.2
  ∧ EPrint (MCreatedTotal 0) ∈ new_events w r.2.
Proof.
  intros Hsrc Hne Hrows r.
  pose proof (no_valid_row_no_keys _ Hrows) as Hkeys.
  subst r. rewrite files_written_run, new_events_run.
  rewrite run_create_mapping_files, Hsrc. simpl fst. simpl snd. simpl files.
  simpl dirs.
  unfold run_outcome, run_files, run_dirs, run_events.
  destruct (readlines content) as [|line0 rest] eqn:Hlines.
  { by apply readlines_nil in Hlines. }
  unfold written_keys, process_events, written_keys. rewrite Hkeys.
  split_and!; [done|by apply no_keys_no_files|done|done|..].
  - right. do 3 right. by left.
  - right. apply elem_of_app. right. apply elem_of_app. right. by left.
  - right. apply elem_of_app. right. apply elem_of_app. right.
    apply elem_of_app. right. apply elem_of_app. right. right. by left.
Qed.

Lemma X4_no_valid_row_witness :
  let w := mkWorld {[ "in.tsv" := "sample-id" +:+ nl ]} ∅ [] in
  files w !! "in.tsv" = Some ("sample-id" +:+ nl)
  ∧ "sample-id" +:+ nl ≠ ""
  ∧ Forall (λ row, ¬ valid_row row) (data_lines (readlines ("sample-id" +:+ nl)))
  ∧ dirs (run (create_mapping_files "in.tsv" "out") w).2 = {[ "out" ]} ∪ dirs w.
Proof.
  intros w. split_and!; [reflexivity | done | constructor |].
  apply (X4_no_valid_row "in.tsv" "out" w ("sample-id" +:+ nl));
    [reflexivity | done | constructor].
Defined.

Lemma skip_messages_app tr1 tr2 :
  skip_messages (tr1 ++ tr2) = skip_messages tr1 ++ skip_messages tr2.
Proof. apply omap_app. Qed.

Lemma skip_messages_skip_events rows :
  skip_messages (rows ≫= skip_events) =
    slice_to 50 <$> filter (λ row, length (fields row) < 10) rows.
Proof.
  induction rows as [|row rows IH]; [done|].
  rewrite bind_cons, skip_messages_app, IH, filter_cons. unfold skip_events.
  destruct (length (fields row) <? 10) eqn:Hlen.
  - apply Nat.ltb_lt in Hlen. by rewrite decide_True.
  - apply Nat.ltb_ge in Hlen. rewrite decide_False by lia. done.
Qed.

Lemma skip_messages_block output_dir key samples :
  skip_messages (block_events output_dir key samples) = [].
Proof.
  unfold block_events. rewrite !skip_messages_app. simpl.
  assert (skip_messages
            ((λ sample, EWrite (output_path output_dir key) (format_record sample))
               <$> samples) = []) as ->.
  { induction samples as [|sample samples IH]; [done|]. by csimpl. }
  assert (skip_messages
            ((λ sample, EPrint (MExample (forward_tag sample) (reverse_tag sample)
                                  (sample_name sample))) <$> take 4 samples) = [])
    as ->; [|done].
  induction (take 4 samples) as [|sample l IH]; [done|]. by csimpl.
Qed.

Lemma skip_messages_blocks output_dir (f : string → list OutputRecord) keys :
  skip_messages (keys ≫= λ key, block_events output_dir key (f key)) = [].
Proof.
  induction keys as [|key keys IH]; [done|].
  by rewrite bind_cons, skip_messages_app, skip_messages_block, IH.
Qed.

(** X5. The run prints one "skipping" message for each data row that has
    fewer than 10 columns, in input order, with the first 50 characters of
    the row, and no such message for any other row: a row with 10 columns
    and an empty sublibrary is left out without a message. *)
Theorem X5_skip_messages input_file output_dir w content :
  files w !! input_file = Some content →
  skip_messages
    (new_events w (run (create_mapping_files input_file output_dir) w).2) =
    slice_to 50
      <$> filter (λ row, length (fields row) < 10) (data_lines (readlines content)).
Proof.
  intros Hsrc. rewrite new_events_run, Hsrc. unfold run_events.
  destruct (readlines content) as [|line0 rest] eqn:Hlines; [done|].
  unfold process_events.
  change (skip_messages (EPrint (MReading input_file) :: ?l))
    with (skip_messages l).
  rewrite !skip_messages_app, skip_messages_skip_events, skip_messages_blocks.
  simpl. by rewrite app_nil_r.
Qed.

Lemma X5_skip_messages_witness :
  files example_world !! "in.tsv" = Some example_table
  ∧ skip_messages
      (new_events example_world
         (run (create_mapping_files "in.tsv" "out") example_world).2)
    = [tsv_row ["S3"; "LIB03"; "p1"; "AAAA"; "p2"; "TTTT"; "p3"; "GGGG"]].
Proof.
  split; [reflexivity|].
  rewrite (X5_skip_messages "in.tsv" "out" example_world example_table eq_refl).
  by vm_compute.
Defined.

Lemma rstrip_all_space s : all_space s = true → rstrip s = "".
Proof.
  induction s as [|c r IH]; [done|]. simpl.
  intros [Hc Hr]%andb_true_iff. by rewrite IH, Hc.
Qed.

Lemma rstrip_app_space a s : all_space s = true → rstrip (a +:+ s) = rstrip a.
Proof.
  intros Hs. induction a as [|c a IH]; simpl; [by apply rstrip_all_space|].
  by rewrite IH.
Qed.

Lemma lstrip_all_space s : all_space s = true → lstrip s = "".
Proof.
  induction s as [|c r IH]; [done|]. simpl.
  intros [Hc Hr]%andb_true_iff. by rewrite Hc, IH.
Qed.

Lemma strip_app_space a s : all_space s = true → strip (a +:+ s) = strip a.
Proof.
  intros Hs. unfold strip. induction a as [|c a IH]; simpl.
  - by rewrite lstrip_all_space.
  - destruct (isspace c); [done|].
    change (String c (a +:+ s)) with (String c a +:+ s).
    by apply rstrip_app_space.
Qed.

(** X6. White space after the last tab of a line is lost together with
    that tab, because [strip] removes it before the line is split: the
    line is read as if its last column were absent.  So a line with ten
    columns whose tenth is blank has at most nine columns when it is
    grouped; it adds no record and is reported as skipped. *)
Theorem X6_blank_last_column_skipped body blank sublibraries w :
  all_space blank = true →
  length (split TAB body) ≤ 9 →
  let row := strip (body +:+ tab +:+ blank) in
  row = strip body
  ∧ length (fields row) < 10
  ∧ run (group_line sublibraries row) w =
      (Val sublibraries,
       mkWorld (files w) (dirs w) (trace w ++ [EPrint (MSkipping (slice_to 50 row))])).
Proof.
  intros Hblank Hbody row.
  assert (row = strip body) as Hrow.
  { subst row. apply strip_app_space. simpl. by rewrite Hblank. }
  assert (length (fields row) < 10) as Hlen.
  { rewrite Hrow. unfold fields, strip. rewrite split_length in *.
    pose proof (count_char_rstrip TAB (lstrip body)).
    pose proof (count_char_lstrip TAB body). lia. }
  split_and!; [done..|].
  rewrite run_group_line. unfold add_row, skip_events.
  rewrite decide_False by (unfold valid_row; lia).
  by rewrite (proj2 (Nat.ltb_lt _ _) Hlen).
Qed.

Lemma X6_blank_last_column_skipped_witness :
  let body := tsv_row ["S1"; "LIB01"; "p1"; "AAAA"; "p2"; "TTTT"; "p3"; "GGGG"; "p4"] in
  all_space nl = true
  ∧ length (split TAB body) ≤ 9
  ∧ length (fields (strip (body +:+ tab +:+ nl))) < 10.
Proof.
  intros body. split_and!; [reflexivity | by vm_compute |].
  apply (X6_blank_last_column_skipped body nl ∅ example_world);
    [reflexivity | by vm_compute].
Defined.

End MappingEdges.

Section MappingGroups.
Import Py Mapping.

Lemma distinct_group_keys_Permutation rows rows' :
  rows ≡ₚ rows' → distinct_group_keys rows ≡ₚ distinct_group_keys rows'.
Proof.
  intros Hperm. apply NoDup_Permutation; try apply NoDup_remove_dups.
  intros key. rewrite !distinct_group_keys_spec.
  by setoid_rewrite Hperm.
Qed.

Lemma group_lines_Permutation key rows rows' :
  rows ≡ₚ rows' → group_lines key rows ≡ₚ group_lines key rows'.
Proof. intros Hperm. unfold group_lines, rows_of_group. by rewrite Hperm. Qed.

(** X7. The order of the data rows decides nothing but the order of the
    lines inside a file: two tables whose data rows are the same up to
    order give the same file names, written in the same order, and each
    file receives the same lines up to order. *)
Theorem X7_row_order input1 input2 output_dir w1 w2 content1 content2 :
  files w1 !! input1 = Some content1 →
  files w2 !! input2 = Some content2 →
  data_lines (readlines content1) ≡ₚ data_lines (readlines content2) →
  Forall2 (λ written1 written2,
             written1.1 = written2.1 ∧ written1.2 ≡ₚ written2.2)
    (files_written
       (new_events w1 (run (create_mapping_files input1 output_dir) w1).2))
    (files_written
       (new_events w2 (run (create_mapping_files input2 output_dir) w2).2)).
Proof.
  intros Hsrc1 Hsrc2 Hperm. rewrite !files_written_run, Hsrc1, Hsrc2.
  unfold written_keys.
  rewrite (sorted_Permutation _ _ (distinct_group_keys_Permutation _ _ Hperm)).
  apply Forall2_fmap, Forall_Forall2_diag, Forall_forall. intros key _.
  split; [done|]. by apply group_lines_Permutation.
Qed.

Lemma X7_row_order_witness :
  files example_world !! "in.tsv" = Some example_table
  ∧ files example_world_reordered !! "in.tsv" = Some example_table_reordered
  ∧ data_lines (readlines example_table)
      ≡ₚ data_lines (readlines example_table_reordered)
  ∧ Forall2 (λ written1 written2,
               written1.1 = written2.1 ∧ written1.2 ≡ₚ written2.2)
      (files_written
         (new_events example_world
            (run (create_mapping_files "in.tsv" "out") example_world).2))
      (files_written
         (new_events example_world_reordered
            (run (create_mapping_files "in.tsv" "out") example_world_reordered).2)).
Proof.
  assert (data_lines (readlines example_table)
            ≡ₚ data_lines (readlines example_table_reordered)) as Hperm.
  { change (data_lines (readlines example_table))
      with (reverse (data_lines (readlines example_table_reordered))).
    apply reverse_Permutation. }
  split_and!; [reflexivity | reflexivity | exact Hperm |].
  apply (X7_row_order "in.tsv" "in.tsv" "out" example_world
           example_world_reordered example_table example_table_reordered);
    [reflexivity | reflexivity | exact Hperm].
Defined.

(** X8. The first line of the input is dropped whatever it holds; it is
    not checked to be a header.  Two inputs that differ in their first
    line only give the same files with the same lines, so a table without
    a header line loses its first row. *)
Theorem X8_first_line_dropped input1 input2 output_dir w1 w2 first1 first2 rest :
  no_newline first1 = true →
  no_newline first2 = true →
  files w1 !! input1 = Some (first1 +:+ nl +:+ rest) →
  files w2 !! input2 = Some (first2 +:+ nl +:+ rest) →
  files_written
    (new_events w1 (run (create_mapping_files input1 output_dir) w1).2) =
  files_written
    (new_events w2 (run (create_mapping_files input2 output_dir) w2).2).
Proof.
  intros H1 H2 Hsrc1 Hsrc2. rewrite !files_written_run, Hsrc1, Hsrc2.
  by rewrite !readlines_line.
Qed.

Lemma X8_first_line_dropped_witness :
  let rest :=
    tsv_row ["S2"; "LIB02"; "p1"; "ACGT"; "p2"; "TGCA"; "p3"; "GGCC"; "p4"; "CCGG"]
      +:+ nl in
  let w1 := mkWorld {[ "in.tsv" := example_table_no_header ]} ∅ [] in
  let w2 := mkWorld {[ "in.tsv" := "sample-id" +:+ nl +:+ rest ]} ∅ [] in
  no_newline example_row = true
  ∧ no_newline "sample-id" = true
  ∧ files w1 !! "in.tsv" = Some (example_row +:+ nl +:+ rest)
  ∧ files w2 !! "in.tsv" = Some ("sample-id" +:+ nl +:+ rest)
  ∧ (files_written
       (new_events w1 (run (create_mapping_files "in.tsv" "out") w1).2)).*1
    = ["out/LIB02_tags.tsv"].
Proof.
  intros rest w1 w2. split_and!; [reflexivity..|].
  rewrite (X8_first_line_dropped "in.tsv" "in.tsv" "out" w1 w2
             example_row "sample-id" rest eq_refl eq_refl eq_refl eq_refl).
  by vm_compute.
Defined.

Lemma split_tab_free s : count_char TAB s = 0 → split TAB s = [s].
Proof.
  induction s as [|c r IH]; [done|]. simpl.
  destruct (Ascii.eqb c TAB); [done|]. intros Hr. by rewrite IH.
Qed.

Lemma split_app_tab a b :
  count_char TAB a = 0 → split TAB (a +:+ tab +:+ b) = a :: split TAB b.
Proof.
  induction a as [|c a IH]; [done|]. simpl.
  destruct (Ascii.eqb c TAB) eqn:Hc; [done|]. intros Ha.
  specialize (IH Ha). simpl in IH. by rewrite IH.
Qed.

Lemma split_three_columns a b c :
  count_char TAB a = 0 → count_char TAB b = 0 → count_char TAB c = 0 →
  split TAB (a +:+ tab +:+ b +:+ tab +:+ c) = [a; b; c].
Proof.
  intros Ha Hb Hc. by rewrite !split_app_tab, split_tab_free.
Qed.

Lemma group_lines_elem_valid key rows line :
  line ∈ group_lines key rows →
  ∃ row, row ∈ rows ∧ valid_row row ∧ group_key row = key
         ∧ (line = format_record (record_16S row)
            ∨ line = format_record (record_ITS1 row)).
Proof.
  unfold group_lines. rewrite list_elem_of_bind. intros (row & Hline & Hrow).
  apply list_elem_of_filter in Hrow as [[Hvalid Hkey] Hrow].
  exists row. split_and!; [done..|].
  apply elem_of_cons in Hline as [-> | Hline]; [by left|].
  apply list_elem_of_singleton in Hline. by right.
Qed.

(** X9. Every line that a run writes comes from a valid data row of the
    group of its file, and splitting the line on tab gives back exactly
    the three values of the record: the two tags of the row and the sample
    name (followed by the line break).  No tag or name can carry a tab
    that would shift the columns. *)
Theorem X9_written_line_round_trip input_file output_dir w content path chunks line :
  files w !! input_file = Some content →
  (path, chunks)
    ∈ files_written
        (new_events w (run (create_mapping_files input_file output_dir) w).2) →
  line ∈ chunks →
  ∃ row key,
    row ∈ data_lines (readlines content)
    ∧ valid_row row ∧ group_key row = key ∧ path = output_path output_dir key
    ∧ ((line = format_record (record_16S row)
        ∧ split TAB line
          = [field 3 row; field 5 row; (sample_id row +:+ "_16S") +:+ nl])
       ∨ (line = format_record (record_ITS1 row)
          ∧ split TAB line
            = [field 7 row; field 9 row; (sample_id row +:+ "_ITS1") +:+ nl])).
Proof.
  intros Hsrc Hin Hline. rewrite files_written_run, Hsrc in Hin.
  apply list_elem_of_fmap in Hin as (key & [= -> ->] & _).
  apply group_lines_elem_valid in Hline as (row & Hrow & Hvalid & Hkey & Hline).
  exists row, key. split_and!; [done..|].
  destruct Hline as [-> | ->]; [left | right]; (split; [done|]);
    unfold format_record; simpl forward_tag; simpl reverse_tag;
    simpl sample_name; rewrite <- (app_assoc_str _ _ nl);
    apply split_three_columns;
    rewrite ?count_char_app; unfold sample_id; by rewrite ?field_no_tab.
Qed.

Lemma X9_written_line_round_trip_witness :
  let line := "GGCC" +:+ tab +:+ "CCGG" +:+ tab +:+ "S2_ITS1" +:+ nl in
  let chunks := ["ACGT" +:+ tab +:+ "TGCA" +:+ tab +:+ "S2_16S" +:+ nl; line] in
  files example_world !! "in.tsv" = Some example_table
  ∧ ("out/LIB02_tags.tsv", chunks)
      ∈ files_written
          (new_events example_world
             (run (create_mapping_files "in.tsv" "out") example_world).2)
  ∧ line ∈ chunks
  ∧ ∃ row key,
      row ∈ data_lines (readlines example_table)
      ∧ valid_row row ∧ group_key row = key
      ∧ "out/LIB02_tags.tsv" = output_path "out" key
      ∧ ((line = format_record (record_16S row)
          ∧ split TAB line
            = [field 3 row; field 5 row; (sample_id row +:+ "_16S") +:+ nl])
         ∨ (line = format_record (record_ITS1 row)
            ∧ split TAB line
              = [field 7 row; field 9 row; (sample_id row +:+ "_ITS1") +:+ nl])).
Proof.
  intros line chunks.
  assert (("out/LIB02_tags.tsv", chunks)
            ∈ files_written
                (new_events example_world
                   (run (create_mapping_files "in.tsv" "out") example_world).2))
    as Hin by (vm_compute; right; left).
  assert (line ∈ chunks) as Hline by (right; left).
  split_and!; [reflexivity | exact Hin | exact Hline |].
  apply (X9_written_line_round_trip "in.tsv" "out" example_world example_table
           "out/LIB02_tags.tsv" chunks line eq_refl Hin Hline).
Defined.

End MappingGroups.

Section MappingLoop.
Import Py Mapping.

Lemma samples_of_length key rows :
  length (samples_of key rows) = 2 * length (rows_of_group key rows).
Proof.
  unfold samples_of. induction (rows_of_group key rows) as [|row l IH]; [done|].
  rewrite bind_cons. simpl. rewrite IH. lia.
Qed.

(** X10. The grouping loop never raises, from any dictionary it starts
    with, and it only appends: a group that exists keeps its records as a
    prefix and gains two records for each valid row with its key; a key is
    added exactly when some valid row has it, and then with a list that is
    not empty.  The loop changes no file and no directory. *)
Theorem X10_grouping_loop_appends rows sublibraries w :
  ∃ grouped,
    run (for_fold rows group_line sublibraries) w =
      (Val grouped, mkWorld (files w) (dirs w) (trace w ++ (rows ≫= skip_events)))
    ∧ (∀ key old, sublibraries !! key = Some old →
         ∃ added, grouped !! key = Some (old ++ added)
                  ∧ length added = 2 * length (rows_of_group key rows))
    ∧ (∀ key, sublibraries !! key = None →
         (grouped !! key = None ↔ rows_of_group key rows = []))
    ∧ (∀ key new, sublibraries !! key = None → grouped !! key = Some new →
         new ≠ [] ∧ length new = 2 * length (rows_of_group key rows)).
Proof.
  exists (foldl add_row sublibraries rows). split; [apply run_group_loop|].
  split_and!.
  - intros key old Hold. rewrite lookup_grouped, Hold. simpl.
    case_decide as Hnil.
    + exists []. rewrite app_nil_r, Hnil. done.
    + exists (samples_of key rows). by rewrite samples_of_length.
  - intros key Hnone. rewrite lookup_grouped, Hnone. by case_decide.
  - intros key new Hnone. rewrite lookup_grouped, Hnone.
    case_decide as Hnil; [done|]. simpl. intros [= <-].
    rewrite samples_of_length. split; [|done].
    intros Hempty. apply (f_equal length) in Hempty.
    rewrite samples_of_length in Hempty.
    destruct (rows_of_group key rows); [done | simpl in Hempty; lia].
Qed.

Lemma sum_indicator row keys :
  NoDup keys →
  sum_list_with
    (λ key, if decide (valid_row row ∧ group_key row = key) then 1 else 0) keys
  = if decide (valid_row row ∧ group_key row ∈ keys) then 1 else 0.
Proof.
  induction 1 as [|key keys Hnotin Hnodup IH]; simpl.
  - rewrite decide_False; [done|]. intros [_ ?%elem_of_nil]. done.
  - rewrite IH.
    destruct (decide (valid_row row ∧ group_key row = key)) as [[Hv <-]|Hne].
    + rewrite (decide_False (P := _ ∧ _ ∈ keys)) by (intros [_ ?]; done).
      rewrite decide_True; [done|]. split; [done|left].
    + destruct (decide (valid_row row ∧ group_key row ∈ keys)) as [[Hv Hin]|Hn].
      * rewrite decide_True; [done|]. split; [done|by right].
      * rewrite decide_False; [done|]. intros [Hv [Heq|Hin]%elem_of_cons];
          [by apply Hne | by apply Hn].
Qed.

Lemma sum_rows_of_group_cons row rows keys :
  sum_list_with (λ key, length (rows_of_group key (row :: rows))) keys =
    sum_list_with
      (λ key, if decide (valid_row row ∧ group_key row = key) then 1 else 0) keys
    + sum_list_with (λ key, length (rows_of_group key rows)) keys.
Proof.
  induction keys as [|key keys IH]; [done|]. simpl.
  rewrite IH, rows_of_group_cons. case_decide; simpl; lia.
Qed.

Lemma sum_rows_of_group rows keys :
  NoDup keys →
  (∀ row, row ∈ rows → valid_row row → group_key row ∈ keys) →
  sum_list_with (λ key, length (rows_of_group key rows)) keys
  = length (filter valid_row rows).
Proof.
  intros Hnodup. induction rows as [|row rows IH]; intros Hkeys.
  - clear. induction keys as [|key keys IHk]; [done|]. simpl in *. done.
  - rewrite sum_rows_of_group_cons, sum_indicator by done.
    rewrite IH by (intros; apply Hkeys; [by right|done]).
    rewrite filter_cons.
    destruct (decide (valid_row row)) as [Hv|Hv].
    + rewrite decide_True; [done|]. split; [done|]. apply Hkeys; [left|done].
    + rewrite decide_False; [done|]. by intros [? _].
Qed.

(** X11. Nothing is lost and nothing is written twice: the lines written
    to all files of a run together are two for each valid data row; a row
    that is not valid adds no line to any file. *)
Theorem X11_two_lines_per_valid_row_in_total input_file output_dir w content :
  files w !! input_file = Some content →
  sum_list_with (λ written, length written.2)
    (files_written
       (new_events w (run (create_mapping_files input_file output_dir) w).2))
  = 2 * length (filter valid_row (data_lines (readlines content))).
Proof.
  intros Hsrc. rewrite files_written_run, Hsrc.
  set (rows := data_lines (readlines content)).
  rewrite <- (sum_rows_of_group rows (written_keys rows)).
  - induction (written_keys rows) as [|key keys IH]; [done|]. csimpl.
    rewrite IH, group_lines_length. lia.
  - apply written_keys_NoDup.
  - intros row Hrow Hvalid. apply written_keys_elem, distinct_group_keys_spec.
    by exists row.
Qed.

Lemma X11_two_lines_per_valid_row_in_total_witness :
  files example_world !! "in.tsv" = Some example_table
  ∧ sum_list_with (λ written, length written.2)
      (files_written
         (new_events example_world
            (run (create_mapping_files "in.tsv" "out") example_world).2))
    = 6.
Proof.
  split; [reflexivity|].
  rewrite (X11_two_lines_per_valid_row_in_total "in.tsv" "out" example_world
             example_table eq_refl).
  by vm_compute.
Defined.

End MappingLoop.

(** * Further properties of [extract_sample_stats] *)

Section RarefactionExtras.
Import Py Rarefaction.

(** X12. [extract_sample_stats] only reads: in every world and for every
    behaviour of the libraries it leaves the files and the directories as
    they are, and it prints nothing unless it returns [None], in which
    case it prints the one diagnostic.  When the archive is absent it
    raises [FileNotFoundError]; when the container cannot be decoded the
    exception of the decoder leaves the function; nothing is printed in
    either case. *)
Theorem X12_extract_reads_only (DataFrame : Type)
    (read_csv : string → result DataFrame) (unzip : string → result Archive)
    qzv_file w :
  let r := run (extract_sample_stats DataFrame read_csv unzip qzv_file) w in
  files r.2 = files w
  ∧ dirs r.2 = dirs w
  ∧ ((r.1 = Val None
      ∧ trace r.2 = trace w ++ [EPrint (MNoFrequencyData qzv_file)])
     ∨ (r.1 ≠ Val None ∧ r.2 = w))
  ∧ (files w !! qzv_file = None → r = (Raise (FileNotFoundError qzv_file), w))
  ∧ (∀ bytes e, files w !! qzv_file = Some bytes → unzip bytes = Raise e →
       r = (Raise e, w)).
Proof.
  intros r.
  assert (r = match files w !! qzv_file with
              | None => (Raise (FileNotFoundError qzv_file), w)
              | Some bytes =>
                  match unzip bytes with
                  | Raise e => (Raise e, w)
                  | Val zip_ref =>
                      match find_data_file (namelist zip_ref) with
                      | Some name =>
                          match member zip_ref name with
                          | Some content => (result_map Some (read_csv content), w)
                          | None => (Raise (KeyError name), w)
                          end
                      | None =>
                          (Val None,
                           mkWorld (files w) (dirs w)
                             (trace w ++ [EPrint (MNoFrequencyData qzv_file)]))
                      end
                  end
              end) as Hr.
  { subst r. unfold extract_sample_stats. rewrite run_bind, run_ZipFile.
    destruct (files w !! qzv_file) as [bytes|]; [|done].
    destruct (unzip bytes) as [zip_ref|e]; [|done]. cbv beta iota.
    destruct (find_data_file (namelist zip_ref)) as [name|] eqn:Hfind; [|done].
    apply find_data_file_Some in Hfind as [Hin Hname].
    rewrite (endswith_suffix_truthy _ Hname).
    rewrite run_bind, run_open_read_csv.
    destruct (member zip_ref name) as [content|]; [|done].
    by destruct (read_csv content). }
  clearbody r. subst r.
  destruct (files w !! qzv_file) as [bytes|] eqn:Hsrc.
  2:{ split_and!; [done | done | by right | done | done]. }
  destruct (unzip bytes) as [zip_ref|e] eqn:Hzip.
  2:{ split_and!; [done | done | by right | done |].
      intros bytes' e' [= <-] Hzip'. rewrite Hzip in Hzip'. by injection Hzip' as ->. }
  assert (∀ (bytes' : string) (e' : exn) (x : result (option DataFrame) * World),
            Some bytes = Some bytes' → unzip bytes' = Raise e' → x = (Raise e', w))
    as Hnever.
  { intros bytes' e' x [= <-] Hzip'. rewrite Hzip in Hzip'. done. }
  destruct (find_data_file (namelist zip_ref)) as [name|] eqn:Hfind.
  - apply find_data_file_Some in Hfind as [Hin Hname].
    destruct (member_is_Some _ _ Hin) as [content ->].
    destruct (read_csv content) as [df|e];
      (split_and!; [done | done | by right | done | intros; by eapply Hnever]).
  - split_and!; [done | done | by left | done | intros; by eapply Hnever].
Qed.

Lemma X12_extract_reads_only_witness :
  files example_qzv_world !! "absent.qzv" = None
  ∧ run (extract_sample_stats string Val (λ _, Val example_archive) "absent.qzv")
      example_qzv_world
    = (Raise (FileNotFoundError "absent.qzv"), example_qzv_world).
Proof.
  split; [reflexivity|].
  apply (X12_extract_reads_only string Val (λ _, Val example_archive)
           "absent.qzv" example_qzv_world).
  reflexivity.
Defined.

End RarefactionExtras.

Section MappingReport.
Import Py Mapping.

Lemma samples_messages_app tr1 tr2 :
  samples_messages (tr1 ++ tr2) = samples_messages tr1 ++ samples_messages tr2.
Proof. apply omap_app. Qed.

Lemma samples_messages_skip_events rows :
  samples_messages (rows ≫= skip_events) = [].
Proof.
  induction rows as [|row rows IH]; [done|].
  rewrite bind_cons, samples_messages_app, IH. unfold skip_events.
  by case_match.
Qed.

Lemma samples_messages_block output_dir key samples :
  samples_messages (block_events output_dir key samples)
  = [(length samples / 2, length samples)].
Proof.
  unfold block_events. rewrite !samples_messages_app.
  assert (samples_messages
            ((λ sample, EWrite (output_path output_dir key) (format_record sample))
               <$> samples) = []) as ->.
  { induction samples as [|sample l IH]; [done|]. by csimpl. }
  assert (samples_messages
            ((λ sample, EPrint (MExample (forward_tag sample) (reverse_tag sample)
                                  (sample_name sample))) <$> take 4 samples) = [])
    as ->; [|done].
  induction (take 4 samples) as [|sample l IH]; [done|]. by csimpl.
Qed.

(** X13. For each sublibrary, in the order of the files, the run reports
    as its number of samples exactly the number of valid rows of the
    sublibrary, and as its number of tag combinations twice that number:
    the integer division by two in the message loses nothing. *)
Theorem X13_reported_sample_counts input_file output_dir w content :
  files w !! input_file = Some content →
  let rows := data_lines (readlines content) in
  samples_messages
    (new_events w (run (create_mapping_files input_file output_dir) w).2) =
    (λ key,
       (length (filter (λ row, valid_row row ∧ group_key row = key) rows),
        2 * length (filter (λ row, valid_row row ∧ group_key row = key) rows)))
      <$> Py.sorted (distinct_group_keys rows).
Proof.
  intros Hsrc rows. rewrite new_events_run, Hsrc. unfold run_events.
  fold (written_keys rows).
  destruct (readlines content) as [|line0 rest] eqn:Hlines; [done|].
  unfold process_events. fold rows.
  change (samples_messages (EPrint (MReading input_file) :: ?l))
    with (samples_messages l).
  rewrite !samples_messages_app, samples_messages_skip_events. simpl.
  rewrite app_nil_r.
  induction (written_keys rows) as [|key keys IH]; [done|].
  rewrite bind_cons, samples_messages_app, samples_messages_block, IH.
  rewrite fmap_cons, samples_of_length.
  assert (2 * length (rows_of_group key rows) / 2 = length (rows_of_group key rows))
    as -> by (rewrite Nat.mul_comm; by apply Nat.div_mul).
  done.
Qed.

Lemma X13_reported_sample_counts_witness :
  files example_world !! "in.tsv" = Some example_table
  ∧ samples_messages
      (new_events example_world
         (run (create_mapping_files "in.tsv" "out") example_world).2)
    = [(2, 4); (1, 2)].
Proof.
  split; [reflexivity|].
  rewrite (X13_reported_sample_counts "in.tsv" "out" example_world
             example_table eq_refl).
  by vm_compute.
Defined.

Lemma group_lines_app key rows more :
  group_lines key (rows ++ more) = group_lines key rows ++ group_lines key more.
Proof. unfold group_lines, rows_of_group. by rewrite filter_app, bind_app. Qed.

(** X14. Rows added at the end of the table only add: every file written
    for the shorter table is written for the longer one too, under the
    same name, and the lines it received before are the first lines it
    receives now. *)
Theorem X14_rows_appended input1 input2 output_dir w1 w2 content1 content2 more
    path chunks :
  files w1 !! input1 = Some content1 →
  files w2 !! input2 = Some content2 →
  data_lines (readlines content2) = data_lines (readlines content1) ++ more →
  (path, chunks)
    ∈ files_written
        (new_events w1 (run (create_mapping_files input1 output_dir) w1).2) →
  ∃ chunks',
    (path, chunks')
      ∈ files_written
          (new_events w2 (run (create_mapping_files input2 output_dir) w2).2)
    ∧ chunks `prefix_of` chunks'.
Proof.
  intros Hsrc1 Hsrc2 Hrows. rewrite !files_written_run, Hsrc1, Hsrc2, Hrows.
  intros (key & [= -> ->] & Hkey)%list_elem_of_fmap.
  exists (group_lines key (data_lines (readlines content1) ++ more)). split.
  - apply list_elem_of_fmap. exists key. split; [done|].
    apply written_keys_elem, distinct_group_keys_spec.
    apply written_keys_elem, distinct_group_keys_spec in Hkey
      as (row & Hrow & Hvalid & Hk).
    exists row. split; [|done]. apply elem_of_app. by left.
  - rewrite group_lines_app. by apply prefix_app_r.
Qed.

Lemma X14_rows_appended_witness :
  let chunks := ["ACGT" +:+ tab +:+ "TGCA" +:+ tab +:+ "S2_16S" +:+ nl;
                 "GGCC" +:+ tab +:+ "CCGG" +:+ tab +:+ "S2_ITS1" +:+ nl] in
  files example_world !! "in.tsv" = Some example_table
  ∧ files example_world_longer !! "in.tsv" = Some example_table_longer
  ∧ data_lines (readlines example_table_longer)
    = data_lines (readlines example_table) ++ example_more_rows
  ∧ ("out/LIB02_tags.tsv", chunks)
      ∈ files_written
          (new_events example_world
             (run (create_mapping_files "in.tsv" "out") example_world).2)
  ∧ ∃ chunks',
      ("out/LIB02_tags.tsv", chunks')
        ∈ files_written
            (new_events example_world_longer
               (run (create_mapping_files "in.tsv" "out") example_world_longer).2)
      ∧ chunks `prefix_of` chunks'.
Proof.
  intros chunks.
  assert (("out/LIB02_tags.tsv", chunks)
            ∈ files_written
                (new_events example_world
                   (run (create_mapping_files "in.tsv" "out") example_world).2))
    as Hin by (vm_compute; right; left).
  split_and!; [reflexivity | reflexivity | reflexivity | exact Hin |].
  apply (X14_rows_appended "in.tsv" "in.tsv" "out" example_world
           example_world_longer example_table example_table_longer
           example_more_rows "out/LIB02_tags.tsv" chunks
           eq_refl eq_refl eq_refl Hin).
Defined.

End MappingReport.
